(** * Analytics and insight engines of ai-opencog, embedded in Rocq

    A shallow embedding of the three analytics services

      - [CognitiveAnalyticsServiceImpl]  (cognitive-analytics-service-impl.ts)
      - [CodeAnalyticsServiceImpl]       (code-analytics-service-impl.ts)
      - [InsightGenerationServiceImpl]   (insight-generation-service-impl.ts)

    Conventions of the embedding.

    - The numbers of the insight ranking and of the code quality score
      (the impact, the confidence and the score of an insight, a debt, a
      benefit, a quality sub-score) are IEEE 754 binary64 numbers, Rocq's
      primitive [float]: products, sums, differences and comparisons are
      the ones of [PrimFloat], rounding, infinities and NaN included, and
      what is proved about them rests on the specification of these
      operations in [FloatAxioms].  The other measurements (an accuracy, a
      latency, an architecture sub-score, an acceptance rate) are exact
      rationals [Q], compared as rationals with the literals of the
      source.  A number that holds a count, an index or a millisecond time
      stamp is a [Z] or a [nat].
    - [Date.now()], [Math.random()]-driven telemetry and the answers of
      injected services are inputs of the model: the clock is a sequence of
      readings, a telemetry snapshot or a collaborator answer is an argument
      of the operation that awaits it.
    - Mutable fields of a service are threaded explicitly: an operation takes
      the field's value before the call and returns its value after it.
    - [Map<string, _>] is a [gmap string _], and the list of its entries in
      insertion order where the code iterates over its values;
      [Set<string>] is a [gset string], an array a [list]. *)

From Stdlib Require Import QArith Qminmax Qround Qabs Qpower Lia Lqa.
From Stdlib Require Import Sorting.Sorted Permutation Floats.
From stdpp Require Import gmap strings list fin_maps pretty.

Local Open Scope Z_scope.

(** ** Binary64 numbers

    What a [float] is, through [Prim2SF]: its sign, mantissa and exponent,
    the rational it denotes, and its place in the order of the numbers. *)

Module Binary64.

(** The number a finite value denotes, in units of [2^emin], the least
    positive binary64 number; [0] on the other values. *)
Definition scaled (x : spec_float) : Z :=
  match x with
  | S754_finite s m e => cond_Zopp s (Zpos m * 2 ^ (e - emin))
  | _ => 0
  end.

(** The order of the values other than NaN: the infinities lie beyond
    every finite value. *)
Definition rank (x : spec_float) : Z :=
  match x with
  | S754_infinity s => cond_Zopp s (2 ^ 2100)
  | _ => scaled x
  end.

(** The place of a number in the order of the numbers other than NaN. *)
Definition order (x : float) : Z := rank (Prim2SF x).

(** What [binary_round_aux] packs: zero, a finite number, or an infinity
    when the exponent is out of range. *)
Definition pack (s : bool) (m e : Z) : spec_float :=
  match m with
  | Z0 => S754_zero s
  | Zpos p => if e <=? emax - prec then S754_finite s p e else S754_infinity s
  | Zneg _ => S754_nan
  end.

(** [k] right shifts of [M], with the round and sticky bits. *)
Definition shifted (M : Z) (k : positive) : shr_record :=
  {| shr_m := M / 2 ^ Zpos k;
     shr_r := Z.odd (M / 2 ^ (Zpos k - 1));
     shr_s := negb (M mod 2 ^ (Zpos k - 1) =? 0) |}.

(** A value above zero: a positive finite number or plus infinity. *)
Definition above_zero (x : spec_float) : bool :=
  match x with
  | S754_infinity false | S754_finite false _ _ => true
  | _ => false
  end.

(** Powers of two as rationals. *)
Definition pow2 (e : Z) : Q := (2 ^ e)%Q.

(** The rational a finite value denotes; [0] on the other values. *)
Definition value (x : spec_float) : Q :=
  match x with
  | S754_finite s m e => (inject_Z (cond_Zopp s (Zpos m)) * pow2 e)%Q
  | _ => 0%Q
  end.

Definition finite (x : spec_float) : bool :=
  match x with
  | S754_zero _ | S754_finite _ _ _ => true
  | _ => false
  end.

(** The rational a finite number is; [0] on the infinities and NaN. *)
Definition toQ (x : float) : Q := value (Prim2SF x).

(** Neither an infinity nor NaN. *)
Definition isFinite (x : float) : bool := finite (Prim2SF x).

(** Finite and not a zero. *)
Definition isRegular (x : float) : bool :=
  match Prim2SF x with
  | S754_finite _ _ _ => true
  | _ => false
  end.

(** The unit roundoff of binary64, and half its least positive number. *)
Definition unit_roundoff : Q := pow2 (-53).
Definition half_least : Q := pow2 (-1075).

End Binary64.

(** ** Numbers as text

    [Number::toString] and [Number.prototype.toFixed] of ECMAScript, for
    radix 10 and no fraction digits: the texts JavaScript builds from a
    number inside a template literal and by [toFixed(0)]. *)

Module NumberFormatting.

Definition ten (e : Z) : Q := (10 ^ e)%Q.

(** The least [n], from [n] on, with [q < 10^n]. *)
Fixpoint exponent_from (fuel : nat) (n : Z) (q : Q) : Z :=
  match fuel with
  | O => n
  | S fuel => if Qle_bool (ten n) q then exponent_from fuel (n + 1) q else n
  end.

(** The [n] with [10^(n-1) <= q < 10^n], for a positive number [q]: it
    lies between -323 and 309. *)
Definition decimal_exponent (q : Q) : Z := exponent_from 640 (-324) q.

(** The rationals that round to the positive number [x]: those between
    the midpoints to its two neighbours, the midpoints included when the
    mantissa of [x] is even. *)
Definition rounds_to (x : float) (v : Q) : bool :=
  let q := Binary64.toQ x in
  let below := Binary64.toQ (next_down x) in
  let lo := ((below + q) / 2)%Q in
  let hi :=
    if is_infinity (next_up x) then (q + (q - below) / 2)%Q
    else ((q + Binary64.toQ (next_up x)) / 2)%Q in
  let even :=
    match Prim2SF x with
    | S754_finite _ m _ => Z.even (Zpos m)
    | _ => true
    end in
  if even then Qle_bool lo v && Qle_bool v hi
  else negb (Qle_bool v lo) && negb (Qle_bool hi v).

(** The decimal [s * 10^(n - k)], where [s] has [k] digits. *)
Record Decimal := {
  dec_s : Z;
  dec_n : Z;
  dec_k : Z
}.

Definition Decimal_value (d : Decimal) : Q :=
  (inject_Z (dec_s d) * ten (dec_n d - dec_k d))%Q.

(** [s * 10^(n - k)] as a decimal of [k] digits: [10^k * 10^(n - k)] is
    [10^(k-1) * 10^(n + 1 - k)]. *)
Definition decimal (s n k : Z) : Decimal :=
  if s =? 10 ^ k
  then {| dec_s := 10 ^ (k - 1); dec_n := n + 1; dec_k := k |}
  else {| dec_s := s; dec_n := n; dec_k := k |}.

(** Of two decimals, the one closer to [q]; the even one on a tie. *)
Definition closer (q : Q) (a b : Decimal) : Decimal :=
  let da := Qabs (q - Decimal_value a) in
  let db := Qabs (q - Decimal_value b) in
  if Qle_bool da db && negb (Qle_bool db da) then a
  else if Qle_bool db da && negb (Qle_bool da db) then b
  else if Z.even (dec_s a) then a else b.

(** The decimal of [k] digits that rounds to [x] and is closest to it, if
    there is one: it is one of the two decimals of [k] digits next to
    [x]. *)
Definition with_digits (x : float) (n k : Z) : option Decimal :=
  let q := Binary64.toQ x in
  let s := Qfloor (q / ten (n - k)) in
  let a := decimal s n k in
  let b := decimal (s + 1) n k in
  match rounds_to x (Decimal_value a), rounds_to x (Decimal_value b) with
  | true, true => Some (closer q a b)
  | true, false => Some a
  | false, true => Some b
  | false, false => None
  end.

(** The decimal with the fewest digits, [k] or more, that rounds to
    [x]. *)
Fixpoint shortest_from (fuel : nat) (x : float) (n k : Z) : Decimal :=
  match fuel with
  | O => {| dec_s := 0; dec_n := 0; dec_k := 1 |}
  | S fuel =>
      match with_digits x n k with
      | Some d => d
      | None => shortest_from fuel x n (k + 1)
      end
  end.

(** The [n], [k] and [s] of Number::toString: seventeen digits are enough
    for every binary64 number. *)
Definition shortest (x : float) : Decimal :=
  shortest_from 17 x (decimal_exponent (Binary64.toQ x)) 1.

Fixpoint zeros (n : nat) : string :=
  match n with
  | O => ""
  | S n => "0" +:+ zeros n
  end.

(** The text of a decimal: plain digits for [k <= n <= 21], a decimal
    point inside for [0 < n <= 21], a leading ["0."] for [-6 < n <= 0], the
    exponential notation otherwise. *)
Definition layout (d : Decimal) : string :=
  let s := pretty (dec_s d) in
  let n := dec_n d in
  let k := dec_k d in
  if (k <=? n) && (n <=? 21) then s +:+ zeros (Z.to_nat (n - k))
  else if (0 <? n) && (n <=? 21) then
    String.substring 0 (Z.to_nat n) s +:+ "." +:+
    String.substring (Z.to_nat n) (Z.to_nat (k - n)) s
  else if (-6 <? n) && (n <=? 0) then "0." +:+ zeros (Z.to_nat (- n)) +:+ s
  else
    let e := (if 0 <? n - 1 then "+" else "-") +:+ pretty (Z.abs (n - 1)) in
    if k =? 1 then s +:+ "e" +:+ e
    else
      String.substring 0 1 s +:+ "." +:+
      String.substring 1 (Z.to_nat (k - 1)) s +:+ "e" +:+ e.

(** [Number::toString(x)], radix 10. *)
Definition toString (x : float) : string :=
  if is_nan x then "NaN"
  else if is_zero x then "0"
  else
    let sign := if (x <? 0)%float then "-" else "" in
    let x := abs x in
    if is_infinity x then sign +:+ "Infinity"
    else sign +:+ layout (shortest x).

(** [x.toFixed(0)]: the integer nearest to [x], the larger one of two,
    for a magnitude below [10^21]. *)
Definition toFixed0 (x : float) : string :=
  if is_nan x || is_infinity x then toString x
  else
    let sign := if (x <? 0)%float then "-" else "" in
    let x := abs x in
    if Qle_bool (ten 21) (Binary64.toQ x) then sign +:+ toString x
    else sign +:+ pretty (Qfloor (Binary64.toQ x + (1 # 2))).

End NumberFormatting.

(** ** JavaScript primitives used by the services *)

Module JS.

(** [x < y] on rationals. *)
Definition ltb (x y : Q) : bool := negb (Qle_bool y x).

(** [x > y] on rationals. *)
Definition gtb (x y : Q) : bool := ltb y x.

(** [x >= y] on rationals. *)
Definition geb (x y : Q) : bool := Qle_bool y x.

(** [x > y] on binary64 numbers: false when an operand is NaN. *)
Definition gt (x y : float) : bool := (y <? x)%float.

(** [Math.min(x, y)]: NaN when an operand is NaN, and [-0] below [+0]. *)
Definition Math_min (x y : float) : float :=
  if is_nan x || is_nan y then nan
  else if (x <? y)%float then x
  else if (y <? x)%float then y
  else if get_sign x then x else y.

(** [x || y] on numbers: [y] when [x] is NaN or a zero. *)
Definition or_else (x y : float) : float :=
  if is_nan x || is_zero x then y else x.

(** An array length as a number; a length is below [2^32], so the
    conversion is exact. *)
Definition Number_of_length (n : nat) : float :=
  of_uint63 (Uint63Axioms.of_Z (Z.of_nat n)).

(** [a.push(x)]. *)
Definition push {A} (a : list A) (x : A) : list A := a ++ [x].

(** [a.shift()]: the array without its first element. *)
Definition shift {A} (a : list A) : list A := tail a.

(** A relative index of [slice], clamped into [0, len]. *)
Definition clamp_index (len : nat) (i : Z) : nat :=
  if i <? 0 then Z.to_nat (Z.max (Z.of_nat len + i) 0)
  else Nat.min (Z.to_nat i) len.

(** [a.slice(start, end)]. *)
Definition slice {A} (a : list A) (start end_ : Z) : list A :=
  let from := clamp_index (length a) start in
  let to := clamp_index (length a) end_ in
  take (to - from)%nat (drop from a).

(** [a.findIndex(p)], [-1] when no element satisfies [p]. *)
Fixpoint findIndex_from {A} (p : A -> bool) (a : list A) (i : Z) : Z :=
  match a with
  | [] => -1
  | x :: a' => if p x then i else findIndex_from p a' (i + 1)
  end.

Definition findIndex {A} (p : A -> bool) (a : list A) : Z :=
  findIndex_from p a 0.

(** [a.splice(0, n)]: the array that remains once [n] leading elements
    are deleted (the delete count is clamped into [0, length]). *)
Definition splice0 {A} (a : list A) (n : Z) : list A :=
  drop (Z.to_nat n) a.

(** [a.sort(cmp)].  ECMAScript requires the sort to be stable; for a
    comparator that is a consistent ordering the result is the one of a
    stable insertion sort: [x] stays in front of [y] unless
    [cmp x y > 0]. *)
Fixpoint sort_insert {A} (cmp : A -> A -> float) (x : A) (a : list A)
  : list A :=
  match a with
  | [] => [x]
  | y :: a' =>
      if gt (cmp x y) 0 then y :: sort_insert cmp x a' else x :: y :: a'
  end.

Fixpoint sort {A} (cmp : A -> A -> float) (a : list A) : list A :=
  match a with
  | [] => []
  | x :: a' => sort_insert cmp x (sort cmp a')
  end.

(** [a.reduce((sum, x) => sum + f(x), 0)]. *)
Definition sum_by {A} (f : A -> float) (a : list A) : float :=
  fold_left (fun sum x => (sum + f x)%float) a 0%float.

(** A [Map] with string keys whose values are iterated over: its entries
    in insertion order.  [set] on a key that is present keeps the place of
    the entry. *)
Definition Map (V : Type) : Type := list (string * V).

Fixpoint Map_set {V} (m : Map V) (key : string) (v : V) : Map V :=
  match m with
  | [] => [(key, v)]
  | (key', v') :: m' =>
      if String.eqb key' key then (key, v) :: m'
      else (key', v') :: Map_set m' key v
  end.

Fixpoint Map_get {V} (m : Map V) (key : string) : option V :=
  match m with
  | [] => None
  | (key', v') :: m' => if String.eqb key' key then Some v' else Map_get m' key
  end.

(** [Array.from(m.values())]. *)
Definition Map_values {V} (m : Map V) : list V := snd <$> m.

End JS.

(** ** The shared types of common/analytics-types.ts *)

(** ['healthy' | 'degraded' | 'critical']. *)
Module Status.
Inductive t := healthy | degraded | critical.

Definition toString (s : t) : string :=
  match s with
  | healthy => "healthy"
  | degraded => "degraded"
  | critical => "critical"
  end.
End Status.

(** ['critical' | 'high' | 'medium' | 'low'], the type of a priority, a
    severity and a risk level. *)
Module Level.
Inductive t := critical | high | medium | low.

Definition toUpperCase (l : t) : string :=
  match l with
  | critical => "CRITICAL"
  | high => "HIGH"
  | medium => "MEDIUM"
  | low => "LOW"
  end.
End Level.

Module Types.

Record CodeEvolutionMetrics := {
  ce_timestamp : Z;
  linesAdded : Z;
  linesRemoved : Z;
  linesModified : Z;
  filesChanged : Z;
  complexityDelta : Q;
  codeQualityScore : Q
}.

Inductive DebtCategory :=
  code_smell | duplication | complexity | deprecated | debt_security.

Record DebtIssue := {
  di_id : string;
  di_category : DebtCategory;
  di_severity : Level.t;
  di_location : string;
  di_description : string;
  estimatedEffort : Q;
  di_impact : Q
}.

Inductive Trend := increasing | decreasing | stable.

Definition Trend_toString (t : Trend) : string :=
  match t with
  | increasing => "increasing"
  | decreasing => "decreasing"
  | stable => "stable"
  end.

Record TechnicalDebtAnalysis := {
  totalDebt : float;
  debtByCategory : JS.Map float;
  criticalIssues : list DebtIssue;
  td_recommendations : list string;
  trend : Trend
}.

Record ArchitectureQualityMetrics := {
  modularity : Q;
  cohesion : Q;
  coupling : Q;
  maintainability : Q;
  testability : Q;
  overallScore : Q;
  weakPoints : list string;
  strengths : list string
}.

Inductive RefactoringType :=
  extract_method | rename | move | simplify | optimize.

Definition RefactoringType_toString (t : RefactoringType) : string :=
  match t with
  | extract_method => "extract-method"
  | rename => "rename"
  | move => "move"
  | simplify => "simplify"
  | optimize => "optimize"
  end.

(** ['high' | 'medium' | 'low']. *)
Inductive RefactoringPriority := rp_high | rp_medium | rp_low.

Record RefactoringOpportunity := {
  ro_id : string;
  ro_type : RefactoringType;
  ro_location : string;
  ro_description : string;
  benefit : float;
  effort : Q;
  ro_priority : RefactoringPriority
}.

Inductive BottleneckType := cpu | memory | io | network.

Record PerformanceBottleneckPrediction := {
  pb_location : string;
  pb_type : BottleneckType;
  pb_severity : Level.t;
  pb_description : string;
  estimatedImpact : Q;
  pb_recommendations : list string
}.

Record SecurityRiskAssessment := {
  riskLevel : Level.t;
  vulnerabilityTypes : list string;
  affectedAreas : list string;
  sr_recommendations : list string;
  cvssScore : option Q
}.

Record CognitivePerformanceMetrics := {
  timestamp : Z;
  reasoningAccuracy : Q;
  reasoningLatency : Q;
  learningConvergence : Q;
  predictionAccuracy : Q;
  knowledgeGraphSize : Z;
  activePatterns : Z
}.

(** The result type of [getCognitiveSystemHealth]. *)
Record Health := {
  status : Status.t;
  issues : list string;
  recommendations : list string
}.

Inductive Category :=
  performance | quality | productivity | collaboration | security.

(** [supportingData: Record<string, unknown>]: the one-key objects the
    generators build. *)
Inductive SupportingData :=
| sd_health (health : Health)
| sd_bottlenecks (bottlenecks : list PerformanceBottleneckPrediction)
| sd_debt (debt : TechnicalDebtAnalysis)
| sd_issues (issues : list DebtIssue)
| sd_opportunities (opportunities : list RefactoringOpportunity)
| sd_security (security : SecurityRiskAssessment).

Record GeneratedInsight := {
  id : string;
  category : Category;
  title : string;
  description : string;
  priority : Level.t;
  impact : float;
  confidence : float;
  gi_recommendations : list string;
  supportingData : SupportingData;
  gi_timestamp : Z
}.

End Types.

(** ** CognitiveAnalyticsServiceImpl *)

Module CognitiveAnalytics.

Import Types.

Definition MAX_HISTORY_SIZE : nat := 1000.

(** [getCognitivePerformanceMetrics()].  [metrics] is the snapshot the
    call assembles from the clock and the engines' telemetry;
    [performanceHistory] is the field before the call.  Returns the
    snapshot and the field after the call. *)
Definition getCognitivePerformanceMetrics
    (metrics : CognitivePerformanceMetrics)
    (performanceHistory : list CognitivePerformanceMetrics)
  : CognitivePerformanceMetrics * list CognitivePerformanceMetrics :=
  let performanceHistory := JS.push performanceHistory metrics in
  let performanceHistory :=
    if (MAX_HISTORY_SIZE <? length performanceHistory)%nat
    then JS.shift performanceHistory
    else performanceHistory in
  (metrics, performanceHistory).

(** The field after a run of calls, one per snapshot of [snapshots],
    starting from the empty history of a fresh service. *)
Definition historyAfter (snapshots : list CognitivePerformanceMetrics)
  : list CognitivePerformanceMetrics :=
  fold_left (fun h m => snd (getCognitivePerformanceMetrics m h)) snapshots [].

(** The locals [healthScore], [issues], [recommendations] of
    [getCognitiveSystemHealth]. *)
Record Locals := {
  healthScore : Z;
  l_issues : list string;
  l_recommendations : list string
}.

Definition flag (issue recommendation : string) (penalty : Z) (l : Locals)
  : Locals :=
  {| healthScore := healthScore l - penalty;
     l_issues := JS.push (l_issues l) issue;
     l_recommendations := JS.push (l_recommendations l) recommendation |}.

Definition checkReasoningAccuracy (metrics : CognitivePerformanceMetrics)
    (l : Locals) : Locals :=
  if JS.ltb (reasoningAccuracy metrics) 0.7 then
    flag "Reasoning accuracy critically low"
         "Immediate model retraining required" 30 l
  else if JS.ltb (reasoningAccuracy metrics) 0.8 then
    flag "Reasoning accuracy below optimal"
         "Schedule model retraining" 15 l
  else l.

Definition checkReasoningLatency (metrics : CognitivePerformanceMetrics)
    (l : Locals) : Locals :=
  if JS.gtb (reasoningLatency metrics) 500 then
    flag "High reasoning latency detected"
         "Optimize query patterns and implement caching" 20 l
  else if JS.gtb (reasoningLatency metrics) 200 then
    flag "Elevated reasoning latency"
         "Review and optimize critical paths" 10 l
  else l.

Definition checkLearningConvergence (metrics : CognitivePerformanceMetrics)
    (l : Locals) : Locals :=
  if JS.ltb (learningConvergence metrics) 0.6 then
    flag "Learning algorithms not converging well"
         "Review training data quality and hyperparameters" 15 l
  else l.

Definition checkPredictionAccuracy (metrics : CognitivePerformanceMetrics)
    (l : Locals) : Locals :=
  if JS.ltb (predictionAccuracy metrics) 0.7 then
    flag "Low prediction accuracy"
         "Enhance feature engineering and model selection" 15 l
  else l.

(** The locals once the four checks have run, in source order. *)
Definition healthLocals (metrics : CognitivePerformanceMetrics) : Locals :=
  checkPredictionAccuracy metrics
    (checkLearningConvergence metrics
      (checkReasoningLatency metrics
        (checkReasoningAccuracy metrics
          {| healthScore := 100; l_issues := []; l_recommendations := [] |}))).

Definition statusOf (healthScore : Z) : Status.t :=
  if 80 <=? healthScore then Status.healthy
  else if 50 <=? healthScore then Status.degraded
  else Status.critical.

(** [getCognitiveSystemHealth()], on the snapshot its call of
    [getCognitivePerformanceMetrics] assembles. *)
Definition getCognitiveSystemHealth
    (snapshot : CognitivePerformanceMetrics)
    (performanceHistory : list CognitivePerformanceMetrics)
  : Health * list CognitivePerformanceMetrics :=
  let '(metrics, performanceHistory) :=
    getCognitivePerformanceMetrics snapshot performanceHistory in
  let l := healthLocals metrics in
  ({| status := statusOf (healthScore l);
      issues := l_issues l;
      recommendations := l_recommendations l |},
   performanceHistory).

(** The penalties as the specification words them: one term per metric,
    each decided by the interval the metric lies in. *)
Definition accuracy_penalty (accuracy : Q) (p : Z) : Prop :=
  ((accuracy < 0.7)%Q -> p = 30) /\
  ((0.7 <= accuracy)%Q /\ (accuracy < 0.8)%Q -> p = 15) /\
  ((0.8 <= accuracy)%Q -> p = 0).

Definition latency_penalty (latency : Q) (p : Z) : Prop :=
  ((500 < latency)%Q -> p = 20) /\
  ((200 < latency)%Q /\ (latency <= 500)%Q -> p = 10) /\
  ((latency <= 200)%Q -> p = 0).

Definition convergence_penalty (convergence : Q) (p : Z) : Prop :=
  ((convergence < 0.6)%Q -> p = 15) /\ ((0.6 <= convergence)%Q -> p = 0).

Definition prediction_penalty (accuracy : Q) (p : Z) : Prop :=
  ((accuracy < 0.7)%Q -> p = 15) /\ ((0.7 <= accuracy)%Q -> p = 0).

Definition classified (score : Z) (s : Status.t) : Prop :=
  (80 <= score -> s = Status.healthy) /\
  (50 <= score < 80 -> s = Status.degraded) /\
  (score < 50 -> s = Status.critical).

(** The metrics of the specification's health example; the fields the
    checks do not read are left open. *)
Definition example_metrics (timestamp knowledgeGraphSize activePatterns : Z)
  : CognitivePerformanceMetrics :=
  {| timestamp := timestamp;
     reasoningAccuracy := 0.65;
     reasoningLatency := 100;
     learningConvergence := 0.9;
     predictionAccuracy := 0.9;
     knowledgeGraphSize := knowledgeGraphSize;
     activePatterns := activePatterns |}.

End CognitiveAnalytics.

(** ** The system clock

    [Date.now()] is modelled by the sequence of its readings: [clock n] is
    the value of the [n]-th read a service makes, and a service counts the
    reads it has made. *)

Definition Clock := nat -> Z.

(** A clock that never runs backwards. *)
Definition monotone (clock : Clock) : Prop :=
  forall i j : nat, (i <= j)%nat -> clock i <= clock j.

(** ** CodeAnalyticsServiceImpl *)

Module CodeAnalytics.

Import Types.

Record State := {
  metricsHistory : gmap string (list CodeEvolutionMetrics);
  ticks : nat
}.

(** The state of a freshly constructed service. *)
Definition initial : State := {| metricsHistory := ∅; ticks := 0 |}.

Definition HISTORY_RETENTION_DAYS : Z := 90.

Definition loadHistoricalMetrics (workspaceRoot : string)
  : list CodeEvolutionMetrics := [].

Definition captureCurrentMetrics (clock : Clock) (workspaceRoot : string)
    (ticks : nat) : CodeEvolutionMetrics * nat :=
  ({| ce_timestamp := clock ticks;
      linesAdded := 0;
      linesRemoved := 0;
      linesModified := 0;
      filesChanged := 0;
      complexityDelta := 0;
      codeQualityScore := 75 |},
   S ticks).

Definition pruneOldMetrics (clock : Clock)
    (metrics : list CodeEvolutionMetrics) (ticks : nat)
  : list CodeEvolutionMetrics * nat :=
  let cutoffTime :=
    clock ticks - HISTORY_RETENTION_DAYS * 24 * 60 * 60 * 1000 in
  let index := JS.findIndex (fun m => cutoffTime <=? ce_timestamp m) metrics in
  (if 0 <? index then JS.splice0 metrics index else metrics, S ticks).

(** [trackCodeEvolution(workspaceRoot)].  The array held by the map and
    the array returned are one object, so the entry of the map after the
    call is the returned history. *)
Definition trackCodeEvolution (clock : Clock) (workspaceRoot : string)
    (s : State) : list CodeEvolutionMetrics * State :=
  let metrics :=
    match metricsHistory s !! workspaceRoot with
    | Some metrics => metrics
    | None => loadHistoricalMetrics workspaceRoot
    end in
  let '(currentMetrics, ticks) :=
    captureCurrentMetrics clock workspaceRoot (ticks s) in
  let metrics := JS.push metrics currentMetrics in
  let '(metrics, ticks) := pruneOldMetrics clock metrics ticks in
  (metrics,
   {| metricsHistory := <[workspaceRoot := metrics]> (metricsHistory s);
      ticks := ticks |}).

(** The states a service goes through: [trackCodeEvolution] is the only
    operation that writes a field or reads the clock. *)
Inductive reachable (clock : Clock) : State -> Prop :=
| reachable_initial : reachable clock initial
| reachable_track workspaceRoot s :
    reachable clock s ->
    reachable clock (snd (trackCodeEvolution clock workspaceRoot s)).

(** The retention window, in milliseconds. *)
Definition retention : Z := HISTORY_RETENTION_DAYS * 24 * 60 * 60 * 1000.

(** The five sub-score helpers of [assessArchitectureQuality]. *)
Definition calculateModularity (workspaceRoot : string) : Q := 75.
Definition calculateCohesion (workspaceRoot : string) : Q := 80.
Definition calculateCoupling (workspaceRoot : string) : Q := 35.
Definition calculateMaintainability (workspaceRoot : string) : Q := 78.
Definition calculateTestability (workspaceRoot : string) : Q := 72.

(** One [if (weak) weakPoints.push(..) else if (strong) strengths.push(..)]
    statement, on the pair of locals [(weakPoints, strengths)]. *)
Definition rate (weak strong : bool) (weakPoint strength : string)
    (l : list string * list string) : list string * list string :=
  if weak then (JS.push (fst l) weakPoint, snd l)
  else if strong then (fst l, JS.push (snd l) strength)
  else l.

Definition low_modularity : string :=
  "Low modularity - consider breaking down large modules".
Definition low_cohesion : string :=
  "Low cohesion - modules have too many unrelated responsibilities".
Definition high_coupling : string :=
  "High coupling - modules are too interdependent".
Definition low_maintainability : string :=
  "Low maintainability - code is difficult to modify".
Definition low_testability : string :=
  "Low testability - code is difficult to test".

Definition excellent_modularity : string := "Excellent modularity".
Definition high_cohesion : string := "High cohesion - well-focused modules".
Definition low_coupling : string :=
  "Low coupling - good separation of concerns".
Definition high_maintainability : string := "High maintainability".
Definition high_testability : string := "High testability".

(** The body of [assessArchitectureQuality] once the five sub-scores are
    computed. *)
Definition assessArchitectureQualityOf
    (modularity cohesion coupling maintainability testability : Q)
  : ArchitectureQualityMetrics :=
  let overallScore :=
    ((modularity + cohesion + (100 - coupling) + maintainability
      + testability) / 5)%Q in
  let l : list string * list string := ([], []) in
  let l := rate (JS.ltb modularity 60) (JS.gtb modularity 80)
                low_modularity excellent_modularity l in
  let l := rate (JS.ltb cohesion 60) (JS.gtb cohesion 80)
                low_cohesion high_cohesion l in
  let l := rate (JS.gtb coupling 40) (JS.ltb coupling 20)
                high_coupling low_coupling l in
  let l := rate (JS.ltb maintainability 60) (JS.gtb maintainability 80)
                low_maintainability high_maintainability l in
  let l := rate (JS.ltb testability 60) (JS.gtb testability 80)
                low_testability high_testability l in
  {| Types.modularity := modularity;
     Types.cohesion := cohesion;
     Types.coupling := coupling;
     Types.maintainability := maintainability;
     Types.testability := testability;
     Types.overallScore := overallScore;
     weakPoints := fst l;
     strengths := snd l |}.

Definition assessArchitectureQuality (workspaceRoot : string)
  : ArchitectureQualityMetrics :=
  assessArchitectureQualityOf
    (calculateModularity workspaceRoot)
    (calculateCohesion workspaceRoot)
    (calculateCoupling workspaceRoot)
    (calculateMaintainability workspaceRoot)
    (calculateTestability workspaceRoot).

Set Warnings "-inexact-float".

(** The five sub-score helpers of [getCodeQualityScore]. *)
Definition getComplexityScore (path : string) : float := 75.
Definition getDuplicationScore (path : string) : float := 80.
Definition getCoverageScore (path : string) : float := 70.
Definition getDocumentationScore (path : string) : float := 65.
Definition getStyleComplianceScore (path : string) : float := 85.

(** The weighted average [getCodeQualityScore] returns once the five
    sub-scores are computed: five products and four sums, each rounded to
    binary64, from left to right. *)
Definition getCodeQualityScoreOf
    (complexity duplication coverage documentation styleCompliance : float)
  : float :=
  (complexity * 0.25 +
   duplication * 0.2 +
   coverage * 0.25 +
   documentation * 0.15 +
   styleCompliance * 0.15)%float.

Set Warnings "inexact-float".

Definition getCodeQualityScore (path : string) : float :=
  getCodeQualityScoreOf
    (getComplexityScore path)
    (getDuplicationScore path)
    (getCoverageScore path)
    (getDocumentationScore path)
    (getStyleComplianceScore path).

(** The composite as the specification words it, over the rationals:
    weights first, a weight per sub-score. *)
Definition weights : list Q := [0.25; 0.20; 0.25; 0.15; 0.15]%Q.

Definition weighted_sum (ws xs : list Q) : Q :=
  fold_right Qplus 0%Q (zip_with Qmult ws xs).

(** A sub-score in [[0, 100]]. *)
Definition subscore (x : float) : Prop :=
  (0 <=? x)%float = true /\ (x <=? 100)%float = true.

(** The distance from the exact weighted sum that rounding can cause:
    [10^-13], some seven units in the last place of a score near 100. *)
Definition tolerance : Q := 1 # 10000000000000.

(** [analyzeTechnicalDebt] of the shipped service and its helpers. *)
Definition analyzeCodeSmells (workspaceRoot : string) : float := 12.
Definition analyzeDuplication (workspaceRoot : string) : float := 8.
Definition analyzeComplexity (workspaceRoot : string) : float := 15.
Definition analyzeDeprecatedAPIs (workspaceRoot : string) : float := 6.
Definition analyzeSecurityDebt (workspaceRoot : string) : float := 10.

Definition identifyCriticalDebtIssues (workspaceRoot : string)
    (issues : list DebtIssue) : list DebtIssue :=
  JS.push issues
    {| di_id := "debt-001";
       di_category := debt_security;
       di_severity := Level.critical;
       di_location := "src/auth/token-handler.ts";
       di_description := "Using deprecated cryptographic algorithm";
       estimatedEffort := 4;
       di_impact := 95 |}.

Definition calculateDebtTrend (workspaceRoot : string) : Trend := stable.

(** [debtByCategory.get(key) || 0]. *)
Definition debtOf (debtByCategory : JS.Map float) (key : string) : float :=
  match JS.Map_get debtByCategory key with
  | Some debt => JS.or_else debt 0
  | None => 0%float
  end.

Definition generateDebtRecommendations (debtByCategory : JS.Map float)
    (criticalIssues : list DebtIssue) : list string :=
  let recommendations : list string := [] in
  let recommendations :=
    if (0 <? length criticalIssues)%nat then
      JS.push recommendations
        ("Address " +:+ pretty (length criticalIssues) +:+
         " critical security and stability issues immediately")
    else recommendations in
  let complexity := debtOf debtByCategory "complexity" in
  let recommendations :=
    if JS.gt complexity 10 then
      JS.push recommendations
        "Prioritize complexity reduction through refactoring"
    else recommendations in
  let duplication := debtOf debtByCategory "duplication" in
  if JS.gt duplication 5 then
    JS.push recommendations
      "Eliminate code duplication through extraction and reuse"
  else recommendations.

Definition analyzeTechnicalDebt (workspaceRoot : string)
  : TechnicalDebtAnalysis :=
  let debtByCategory : JS.Map float := [] in
  let debtByCategory :=
    JS.Map_set debtByCategory "code-smell" (analyzeCodeSmells workspaceRoot) in
  let debtByCategory :=
    JS.Map_set debtByCategory "duplication"
      (analyzeDuplication workspaceRoot) in
  let debtByCategory :=
    JS.Map_set debtByCategory "complexity"
      (analyzeComplexity workspaceRoot) in
  let debtByCategory :=
    JS.Map_set debtByCategory "deprecated"
      (analyzeDeprecatedAPIs workspaceRoot) in
  let debtByCategory :=
    JS.Map_set debtByCategory "security"
      (analyzeSecurityDebt workspaceRoot) in
  let criticalIssues := identifyCriticalDebtIssues workspaceRoot [] in
  let totalDebt :=
    fold_left (fun sum debt => (sum + debt)%float)
      (JS.Map_values debtByCategory) 0%float in
  {| Types.totalDebt := totalDebt;
     Types.debtByCategory := debtByCategory;
     Types.criticalIssues := criticalIssues;
     td_recommendations :=
       generateDebtRecommendations debtByCategory criticalIssues;
     trend := calculateDebtTrend workspaceRoot |}.

(** The answers of the shipped service to the calls the insight
    generators make. *)
Definition predictPerformanceBottlenecks (workspaceRoot : string)
  : list PerformanceBottleneckPrediction :=
  [ {| pb_location := "src/data/query-processor.ts:67";
       pb_type := cpu;
       pb_severity := Level.high;
       pb_description := "O(n²) nested loop processing large datasets";
       estimatedImpact := 45;
       pb_recommendations :=
         [ "Use hash map for O(1) lookups instead of nested iteration";
           "Consider processing in batches";
           "Add caching for frequently accessed data" ] |} ].

Definition identifyRefactoringOpportunities (workspaceRoot : string)
  : list RefactoringOpportunity :=
  [ {| ro_id := "refactor-001";
       ro_type := extract_method;
       ro_location := "src/services/data-processor.ts:45-120";
       ro_description :=
         "Long method with multiple responsibilities - extract data validation logic";
       benefit := 85%float;
       effort := 2;
       ro_priority := rp_high |};
    {| ro_id := "refactor-002";
       ro_type := simplify;
       ro_location := "src/utils/conditional-logic.ts:25-60";
       ro_description :=
         "Complex nested conditionals - simplify using strategy pattern";
       benefit := 70%float;
       effort := 3;
       ro_priority := rp_medium |} ].

Definition assessSecurityRisks (workspaceRoot : string)
  : SecurityRiskAssessment :=
  {| riskLevel := Level.medium;
     vulnerabilityTypes :=
       [ "Potential SQL injection in dynamic query construction";
         "Missing input validation in user-facing endpoints";
         "Outdated dependencies with known vulnerabilities" ];
     affectedAreas :=
       [ "src/api/query-handler.ts";
         "src/api/user-input-processor.ts";
         "package.json" ];
     sr_recommendations :=
       [ "Use parameterized queries or ORM for database access";
         "Implement comprehensive input validation and sanitization";
         "Update dependencies to latest secure versions";
         "Add security linting rules to CI/CD pipeline" ];
     cvssScore := Some 6.5%Q |}.

(** A snapshot taken at time [t], as [captureCurrentMetrics] builds it. *)
Definition snapshotAt (t : Z) : CodeEvolutionMetrics :=
  {| ce_timestamp := t;
     linesAdded := 0;
     linesRemoved := 0;
     linesModified := 0;
     filesChanged := 0;
     complexityDelta := 0;
     codeQualityScore := 75 |}.

(** The history of [workspaceRoot] as [trackCodeEvolution] finds it. *)
Definition prior (workspaceRoot : string) (s : State)
  : list CodeEvolutionMetrics :=
  match metricsHistory s !! workspaceRoot with
  | Some metrics => metrics
  | None => loadHistoricalMetrics workspaceRoot
  end.

(** The test of [pruneOldMetrics]: not older than the cutoff. *)
Definition fresh (cutoffTime : Z) (m : CodeEvolutionMetrics) : bool :=
  cutoffTime <=? ce_timestamp m.

Definition earlier (a b : CodeEvolutionMetrics) : Prop :=
  ce_timestamp a <= ce_timestamp b.

(** A history in the order its snapshots were taken. *)
Definition chronological (h : list CodeEvolutionMetrics) : Prop :=
  StronglySorted earlier h.

(** Every stored history is chronological and holds no snapshot from the
    future. *)
Definition timely (clock : Clock) (s : State) : Prop :=
  forall workspaceRoot h,
    metricsHistory s !! workspaceRoot = Some h ->
    chronological h /\ Forall (fun m => ce_timestamp m <= clock (ticks s)) h.

(** A clock read every fifty days. *)
Definition steady : Clock := fun n => 4320000000 * Z.of_nat n.

Definition tracked_once : State :=
  snd (trackCodeEvolution steady "/workspace" initial).

(** A clock that is set back by 145 days after the first call. *)
Definition set_back : Clock :=
  fun n =>
    match n with
    | 0%nat | 1%nat => 150 * 86400000
    | 2%nat | 3%nat => 5 * 86400000
    | _ => 200 * 86400000
    end.

Definition tracked_twice_set_back : State :=
  snd (trackCodeEvolution set_back "/workspace"
         (snd (trackCodeEvolution set_back "/workspace" initial))).

(** A clock that steps back by one second between the first and the
    second call, and is read again 90 days less half a second after the
    first call. *)
Definition stepped_back : Clock :=
  fun n =>
    match n with
    | 0%nat | 1%nat => 100 * 86400000
    | 2%nat | 3%nat => 100 * 86400000 - 1000
    | _ => 190 * 86400000 - 500
    end.

Definition tracked_twice_stepped_back : State :=
  snd (trackCodeEvolution stepped_back "/workspace"
         (snd (trackCodeEvolution stepped_back "/workspace" initial))).

(** A clock under which the third call captures at day 50 and prunes at
    day 150, more than the window later. *)
Definition slow_prune : Clock :=
  fun n =>
    match n with
    | 0%nat | 1%nat => 0
    | 2%nat | 3%nat => 10 * 86400000
    | 4%nat => 50 * 86400000
    | _ => 150 * 86400000
    end.

Definition tracked_twice_slow_prune : State :=
  snd (trackCodeEvolution slow_prune "/workspace"
         (snd (trackCodeEvolution slow_prune "/workspace" initial))).

(** The rule the specification gives for a sub-score: an entry among the
    weak points exactly below 60, an entry among the strengths exactly
    above 80. *)
Definition dead_zone_rule (subscore : Q) (weakPoint strength : string)
    (r : ArchitectureQualityMetrics) : Prop :=
  (In weakPoint (weakPoints r) <-> (subscore < 60)%Q) /\
  (In strength (strengths r) <-> (80 < subscore)%Q).

(** The rule the source applies to coupling, where lower is better. *)
Definition coupling_rule (coupling : Q) (r : ArchitectureQualityMetrics)
  : Prop :=
  (In high_coupling (weakPoints r) <-> (40 < coupling)%Q) /\
  (In low_coupling (strengths r) <-> (coupling < 20)%Q).

End CodeAnalytics.

(** ** InsightGenerationServiceImpl *)

(** How a number is printed inside a template literal and by
    [toFixed(0)].  The texts of titles and descriptions are the only users. *)
Class NumberFormat := {
  Number_toString : float -> string;
  Number_toFixed0 : float -> string
}.

Module InsightGeneration.

Import Types.

Record Feedback := {
  helpful : bool;
  comment : option string
}.

Record State := {
  generatedInsights : gmap string GeneratedInsight;
  insightFeedback : gmap string (list Feedback);
  acknowledgedInsights : gset string;
  ticks : nat
}.

(** The state of a freshly constructed service. *)
Definition initial : State :=
  {| generatedInsights := ∅;
     insightFeedback := ∅;
     acknowledgedInsights := ∅;
     ticks := 0 |}.

(** The answers the injected services give to the calls of one pass of
    the generators: [getCognitiveSystemHealth()],
    [predictPerformanceBottlenecks], [analyzeTechnicalDebt],
    [identifyRefactoringOpportunities] and [assessSecurityRisks], each on
    ['/workspace']. *)
Record Answers := {
  cognitiveHealth : Health;
  bottlenecks : list PerformanceBottleneckPrediction;
  debtAnalysis : TechnicalDebtAnalysis;
  refactoringOps : list RefactoringOpportunity;
  securityRisks : SecurityRiskAssessment
}.

(** Computations that read the clock: from the number of reads made so
    far to a result and the number of reads made afterwards. *)
Definition Reads (A : Type) : Type := nat -> A * nat.

Definition ret {A} (x : A) : Reads A := fun n => (x, n).

Definition bind {A B} (c : Reads A) (k : A -> Reads B) : Reads B :=
  fun n => let '(x, n') := c n in k x n'.

Notation "x <- c ;; k" := (bind c (fun x => k))
  (at level 100, c at next level, right associativity).

Definition Date_now (clock : Clock) : Reads Z :=
  fun n => (clock n, S n).

(** [a.join(sep)] on strings. *)
Fixpoint join (sep : string) (a : list string) : string :=
  match a with
  | [] => ""
  | [x] => x
  | x :: a' => x +:+ sep +:+ join sep a'
  end.

Definition is_degraded_or_critical (s : Status.t) : bool :=
  match s with
  | Status.degraded | Status.critical => true
  | Status.healthy => false
  end.

Definition is_critical_or_high (l : Level.t) : bool :=
  match l with
  | Level.critical | Level.high => true
  | _ => false
  end.

Definition is_high (p : RefactoringPriority) : bool :=
  match p with
  | rp_high => true
  | _ => false
  end.

Set Warnings "-inexact-float".

Section Generators.

Context `{NumberFormat}.
Variable clock : Clock.
Variable answers : Answers.

Definition generatePerformanceInsights : Reads (list GeneratedInsight) :=
  let insights : list GeneratedInsight := [] in
  let cognitiveHealth := cognitiveHealth answers in
  insights <-
    (if is_degraded_or_critical (status cognitiveHealth) then
       idTime <- Date_now clock ;;
       now <- Date_now clock ;;
       ret (JS.push insights
         {| id := "perf-" +:+ pretty idTime +:+ "-1";
            category := performance;
            title := "Cognitive System Performance Degradation Detected";
            description :=
              "The cognitive system is experiencing " +:+
              Status.toString (status cognitiveHealth) +:+
              " performance. " +:+ join ". " (issues cognitiveHealth);
            priority :=
              match status cognitiveHealth with
              | Status.critical => Level.critical
              | _ => Level.high
              end;
            impact := 85%float;
            confidence := 0.92%float;
            gi_recommendations := recommendations cognitiveHealth;
            supportingData := sd_health cognitiveHealth;
            gi_timestamp := now |})
     else ret insights) ;;
  let bottlenecks := bottlenecks answers in
  if (0 <? length bottlenecks)%nat then
    let criticalBottlenecks :=
      List.filter (fun b => is_critical_or_high (pb_severity b))
                  bottlenecks in
    match criticalBottlenecks with
    | first :: _ =>
        idTime <- Date_now clock ;;
        now <- Date_now clock ;;
        ret (JS.push insights
          {| id := "perf-" +:+ pretty idTime +:+ "-2";
             category := performance;
             title :=
               pretty (length criticalBottlenecks) +:+
               " Performance Bottleneck(s) Identified";
             description :=
               "Critical performance issues detected that could impact application responsiveness. "
               +:+ pb_description first;
             priority := Level.high;
             impact := 75%float;
             confidence := 0.85%float;
             gi_recommendations := pb_recommendations first;
             supportingData := sd_bottlenecks criticalBottlenecks;
             gi_timestamp := now |})
    | [] => ret insights
    end
  else ret insights.

Definition generateQualityInsights : Reads (list GeneratedInsight) :=
  let insights : list GeneratedInsight := [] in
  let debtAnalysis := debtAnalysis answers in
  insights <-
    (if JS.gt (totalDebt debtAnalysis) 40 then
       idTime <- Date_now clock ;;
       now <- Date_now clock ;;
       ret (JS.push insights
         {| id := "quality-" +:+ pretty idTime +:+ "-1";
            category := quality;
            title := "High Technical Debt Detected";
            description :=
              "Current technical debt is estimated at " +:+
              Number_toString (totalDebt debtAnalysis) +:+
              " hours. Trend is " +:+
              Trend_toString (trend debtAnalysis) +:+ ".";
            priority :=
              if JS.gt (totalDebt debtAnalysis) 80
              then Level.critical else Level.high;
            impact := JS.Math_min 100 (totalDebt debtAnalysis);
            confidence := 0.88%float;
            gi_recommendations := td_recommendations debtAnalysis;
            supportingData := sd_debt debtAnalysis;
            gi_timestamp := now |})
     else ret insights) ;;
  match criticalIssues debtAnalysis with
  | first :: _ =>
      idTime <- Date_now clock ;;
      now <- Date_now clock ;;
      ret (JS.push insights
        {| id := "quality-" +:+ pretty idTime +:+ "-2";
           category := quality;
           title :=
             pretty (length (criticalIssues debtAnalysis)) +:+
             " Critical Quality Issue(s) Found";
           description :=
             "Critical issues requiring immediate attention: " +:+
             di_description first;
           priority := Level.critical;
           impact := 90%float;
           confidence := 0.95%float;
           gi_recommendations :=
             ["Fix critical issue in " +:+ di_location first];
           supportingData := sd_issues (criticalIssues debtAnalysis);
           gi_timestamp := now |})
  | [] => ret insights
  end.

Definition generateProductivityInsights : Reads (list GeneratedInsight) :=
  let insights : list GeneratedInsight := [] in
  let refactoringOps := refactoringOps answers in
  let highPriorityOps :=
    List.filter (fun op => is_high (ro_priority op)) refactoringOps in
  match highPriorityOps with
  | first :: _ =>
      let totalBenefit := JS.sum_by benefit highPriorityOps in
      let avgBenefit :=
        (totalBenefit / JS.Number_of_length (length highPriorityOps))%float in
      idTime <- Date_now clock ;;
      now <- Date_now clock ;;
      ret (JS.push insights
        {| id := "productivity-" +:+ pretty idTime +:+ "-1";
           category := productivity;
           title :=
             pretty (length highPriorityOps) +:+
             " High-Value Refactoring Opportunit" +:+
             (if (length highPriorityOps =? 1)%nat then "y" else "ies");
           description :=
             "Refactoring opportunities with average benefit score of "
             +:+ Number_toFixed0 avgBenefit +:+ "%. " +:+
             ro_description first;
           priority := Level.medium;
           impact := avgBenefit;
           confidence := 0.82%float;
           gi_recommendations :=
             [ "Start with " +:+ RefactoringType_toString (ro_type first)
               +:+ " refactoring at " +:+ ro_location first;
               "Allocate time for systematic technical improvement" ];
           supportingData := sd_opportunities highPriorityOps;
           gi_timestamp := now |})
  | [] => ret insights
  end.

Definition generateSecurityInsights : Reads (list GeneratedInsight) :=
  let insights : list GeneratedInsight := [] in
  let securityRisks := securityRisks answers in
  if is_critical_or_high (riskLevel securityRisks) then
    idTime <- Date_now clock ;;
    now <- Date_now clock ;;
    ret (JS.push insights
      {| id := "security-" +:+ pretty idTime +:+ "-1";
         category := security;
         title :=
           Level.toUpperCase (riskLevel securityRisks) +:+
           " Security Risk Detected";
         description :=
           "Security vulnerabilities found: " +:+
           join ", " (vulnerabilityTypes securityRisks);
         priority :=
           match riskLevel securityRisks with
           | Level.critical => Level.critical
           | _ => Level.high
           end;
         impact := 95%float;
         confidence := 0.90%float;
         gi_recommendations := sr_recommendations securityRisks;
         supportingData := sd_security securityRisks;
         gi_timestamp := now |})
  else ret insights.

Definition generateCollaborationInsights : Reads (list GeneratedInsight) :=
  ret [].

(** The four generator calls of [generateInsights], in source order. *)
Definition generateAll : Reads (list GeneratedInsight) :=
  let insights : list GeneratedInsight := [] in
  generated <- generatePerformanceInsights ;;
  let insights := insights ++ generated in
  generated <- generateQualityInsights ;;
  let insights := insights ++ generated in
  generated <- generateProductivityInsights ;;
  let insights := insights ++ generated in
  generated <- generateSecurityInsights ;;
  let insights := insights ++ generated in
  ret insights.

(** [insights.forEach(insight => generatedInsights.set(insight.id, insight))]. *)
Definition storeAll (insights : list GeneratedInsight)
    (generatedInsights : gmap string GeneratedInsight)
  : gmap string GeneratedInsight :=
  fold_left (fun m insight => <[id insight := insight]> m)
            insights generatedInsights.

Definition generateInsights (s : State) : list GeneratedInsight * State :=
  let '(insights, ticks) := generateAll (ticks s) in
  (insights,
   {| generatedInsights := storeAll insights (generatedInsights s);
      insightFeedback := insightFeedback s;
      acknowledgedInsights := acknowledgedInsights s;
      ticks := ticks |}).

Definition generateInsightsByCategory (category : Category) (s : State)
  : list GeneratedInsight * State :=
  let '(insights, ticks) :=
    match category with
    | performance => generatePerformanceInsights
    | quality => generateQualityInsights
    | productivity => generateProductivityInsights
    | security => generateSecurityInsights
    | collaboration => generateCollaborationInsights
    end (ticks s) in
  (insights,
   {| generatedInsights := generatedInsights s;
      insightFeedback := insightFeedback s;
      acknowledgedInsights := acknowledgedInsights s;
      ticks := ticks |}).

Definition priorityWeight (p : Level.t) : float :=
  match p with
  | Level.critical => 4
  | Level.high => 3
  | Level.medium => 2
  | Level.low => 1
  end.

(** [priorityWeight[a.priority] * a.impact * a.confidence]: two products,
    each rounded to binary64. *)
Definition score (a : GeneratedInsight) : float :=
  (priorityWeight (priority a) * impact a * confidence a)%float.

(** The comparator handed to [sort]. *)
Definition byScore (a b : GeneratedInsight) : float :=
  let aScore := score a in
  let bScore := score b in
  (bScore - aScore)%float.

(** [getPrioritizedInsights(limit = 10)]. *)
Definition getPrioritizedInsights (limit : option Z) (s : State)
  : list GeneratedInsight * State :=
  let limit := default 10 limit in
  let '(allInsights, s) := generateInsights s in
  let sorted := JS.sort byScore allInsights in
  (JS.slice sorted 0 limit, s).

Definition getPersonalizedInsights (userId : string) (s : State)
  : list GeneratedInsight * State :=
  let '(allInsights, s) := generateInsights s in
  (JS.slice
     (List.filter
        (fun insight =>
           negb (bool_decide (id insight ∈ acknowledgedInsights s)))
        allInsights)
     0 5,
   s).

End Generators.

Set Warnings "inexact-float".

Definition acknowledgeInsight (insightId : string) (s : State) : State :=
  {| generatedInsights := generatedInsights s;
     insightFeedback := insightFeedback s;
     acknowledgedInsights := {[insightId]} ∪ acknowledgedInsights s;
     ticks := ticks s |}.

Definition provideInsightFeedback (insightId : string) (helpful : bool)
    (comment : option string) (s : State) : State :=
  let insightFeedback :=
    match insightFeedback s !! insightId with
    | Some _ => insightFeedback s
    | None => <[insightId := []]> (insightFeedback s)
    end in
  let insightFeedback :=
    alter (fun feedbackList =>
             JS.push feedbackList
               {| InsightGeneration.helpful := helpful;
                  InsightGeneration.comment := comment |})
          insightId insightFeedback in
  {| generatedInsights := generatedInsights s;
     InsightGeneration.insightFeedback := insightFeedback;
     acknowledgedInsights := acknowledgedInsights s;
     ticks := ticks s |}.

(** The innermost callback of [getInsightAcceptanceRate], on the two
    counters [(totalFeedback, helpfulCount)]. *)
Definition tally (counters : Z * Z) (feedback : Feedback) : Z * Z :=
  let '(totalFeedback, helpfulCount) := counters in
  (totalFeedback + 1,
   if helpful feedback then helpfulCount + 1 else helpfulCount).

(** The two counters after the nested [forEach]. *)
Definition countFeedback (insightFeedback : gmap string (list Feedback))
  : Z * Z :=
  map_fold
    (fun _ feedbackList counters => fold_left tally feedbackList counters)
    (0, 0) insightFeedback.

Definition getInsightAcceptanceRate (s : State) : Q :=
  let '(totalFeedback, helpfulCount) := countFeedback (insightFeedback s) in
  if 0 <? totalFeedback
  then (inject_Z helpfulCount / inject_Z totalFeedback)%Q
  else 0%Q.

(** One call of [provideInsightFeedback], as data. *)
Record FeedbackCall := {
  fc_insightId : string;
  fc_helpful : bool;
  fc_comment : option string
}.

(** The state after a run of [provideInsightFeedback] calls. *)
Definition afterFeedback (calls : list FeedbackCall) (s : State) : State :=
  fold_left
    (fun s c =>
       provideInsightFeedback (fc_insightId c) (fc_helpful c) (fc_comment c) s)
    calls s.

(** The prefix of an id for each category. *)
Definition idPrefix (c : Category) : string :=
  match c with
  | performance => "perf"
  | quality => "quality"
  | productivity => "productivity"
  | security => "security"
  | collaboration => "collaboration"
  end.

(** Every stored insight sits under its own id. *)
Definition keyed_by_id (generatedInsights : gmap string GeneratedInsight)
  : Prop :=
  forall k insight, generatedInsights !! k = Some insight -> id insight = k.

(** The id of the insight a rule of category [c] builds at time [t] in
    its slot [k]. *)
Definition slot_id (c : Category) (t : Z) (k : Z) : string :=
  idPrefix c +:+ "-" +:+ pretty t +:+ "-" +:+ pretty k.

(** An insight whose id is built from its category, a clock reading made
    between the reads [lo] and [hi], and slot 1 or 2. *)
Definition slotted (clock : Clock) (lo hi : nat) (insight : GeneratedInsight)
  : Prop :=
  exists (n : nat) (k : Z),
    (lo <= n < hi)%nat /\ (k = 1 \/ k = 2) /\
    id insight = slot_id (category insight) (clock n) k.

(** The last character of a string, as a string. *)
Fixpoint last_char (s : string) : string :=
  match s with
  | EmptyString => ""
  | String c EmptyString => String c ""
  | String _ s' => last_char s'
  end.

(** The first two characters and the last one: enough to tell the ids of
    one pass apart. *)
Definition tag (s : string) : string * string :=
  (String.substring 0 2 s, last_char s).

(** The tags a pass can produce, in generation order. *)
Definition pass_tags : list (string * string) :=
  [ ("pe", "1"); ("pe", "2"); ("qu", "1"); ("qu", "2");
    ("pr", "1"); ("se", "1") ].

(** Any two distinct insights carry distinct ids. *)
Definition distinct_ids (insights : list GeneratedInsight) : Prop :=
  forall a b, a ∈ insights -> b ∈ insights -> a <> b -> id a <> id b.

(** [a] is ranked no lower than [b]: [score b <= score a]. *)
Definition ranks_before (a b : GeneratedInsight) : Prop :=
  (score b <=? score a)%float = true.

(** [score a === q]. *)
Definition has_score (q : float) (a : GeneratedInsight) : bool :=
  (score a =? q)%float.

(** No insight has the score NaN. *)
Definition scored (insights : list GeneratedInsight) : Prop :=
  Forall (fun a => is_nan (score a) = false) insights.

(** An insight whose impact is a number and whose confidence is finite
    and not zero. *)
Definition rated (a : GeneratedInsight) : Prop :=
  is_nan (impact a) = false /\ Binary64.isRegular (confidence a) = true.

(** The average [generateProductivityInsights] takes over the benefits of
    the high-priority opportunities. *)
Definition averageBenefit (refactoringOps : list RefactoringOpportunity)
  : float :=
  let highPriorityOps :=
    List.filter (fun op => is_high (ro_priority op)) refactoringOps in
  let totalBenefit := JS.sum_by benefit highPriorityOps in
  (totalBenefit / JS.Number_of_length (length highPriorityOps))%float.

(** There is no high-priority opportunity, or the average benefit is a
    number. *)
Definition benefit_known (refactoringOps : list RefactoringOpportunity)
  : Prop :=
  match List.filter (fun op => is_high (ro_priority op)) refactoringOps with
  | [] => True
  | _ :: _ => is_nan (averageBenefit refactoringOps) = false
  end.

(** Among insights of equal score the more recent one comes first. *)
Definition recent_first (out : list GeneratedInsight) : Prop :=
  forall (i j : nat) (a b : GeneratedInsight),
    out !! i = Some a -> out !! j = Some b ->
    (score a =? score b)%float = true -> gi_timestamp a < gi_timestamp b ->
    (j < i)%nat.

(** Among insights of equal score the one generated first comes first. *)
Definition generation_order_kept (generated out : list GeneratedInsight)
  : Prop :=
  forall q : float,
    List.filter (has_score q) out `prefix_of` List.filter (has_score q) generated.

(** The format of ECMAScript. *)
#[export] Instance ecmascript_format : NumberFormat :=
  {| Number_toString := NumberFormatting.toString;
     Number_toFixed0 := NumberFormatting.toFixed0 |}.

(** A clock that advances by one millisecond per read, and one that
    stands still. *)
Definition ticking : Clock := fun n => 1700000000000 + Z.of_nat n.
Definition stalled : Clock := fun _ => 1700000000000.

(** Health reports of the cognitive service: on the specification's
    example metrics, and on metrics that miss every threshold. *)
Definition degraded_report : Health :=
  fst (CognitiveAnalytics.getCognitiveSystemHealth
         (CognitiveAnalytics.example_metrics 1700000000000 15000 450) []).

Definition critical_report : Health :=
  fst (CognitiveAnalytics.getCognitiveSystemHealth
         {| timestamp := 1700000000000;
            reasoningAccuracy := 0.5;
            reasoningLatency := 600;
            learningConvergence := 0.5;
            predictionAccuracy := 0.5;
            knowledgeGraphSize := 15000;
            activePatterns := 450 |} []).

Definition healthy_report : Health :=
  {| status := Status.healthy; issues := []; recommendations := [] |}.

(** The answers of the shipped code analytics service, next to a given
    health report. *)
Definition shipped_answers (health : Health) : Answers :=
  {| cognitiveHealth := health;
     bottlenecks := CodeAnalytics.predictPerformanceBottlenecks "/workspace";
     debtAnalysis := CodeAnalytics.analyzeTechnicalDebt "/workspace";
     refactoringOps :=
       CodeAnalytics.identifyRefactoringOpportunities "/workspace";
     securityRisks := CodeAnalytics.assessSecurityRisks "/workspace" |}.

(** The same answers, from a scan that rates the security risk critical. *)
Definition critical_risk_answers : Answers :=
  {| cognitiveHealth := healthy_report;
     bottlenecks := CodeAnalytics.predictPerformanceBottlenecks "/workspace";
     debtAnalysis := CodeAnalytics.analyzeTechnicalDebt "/workspace";
     refactoringOps :=
       CodeAnalytics.identifyRefactoringOpportunities "/workspace";
     securityRisks :=
       {| riskLevel := Level.critical;
          vulnerabilityTypes :=
            vulnerabilityTypes (CodeAnalytics.assessSecurityRisks "/workspace");
          affectedAreas :=
            affectedAreas (CodeAnalytics.assessSecurityRisks "/workspace");
          sr_recommendations :=
            sr_recommendations (CodeAnalytics.assessSecurityRisks "/workspace");
          cvssScore := Some 9.8%Q |} |}.

Set Warnings "-inexact-float".

(** Answers on which rounding decides a rank: a debt of 47.15 hours, one
    high-priority opportunity of benefit 75.9, nothing else to report. *)
Definition close_call_answers : Answers :=
  {| cognitiveHealth := healthy_report;
     bottlenecks := [];
     debtAnalysis :=
       {| totalDebt := 47.15%float;
          debtByCategory := [("code-smell", 47.15%float)];
          criticalIssues := [];
          td_recommendations := [];
          trend := stable |};
     refactoringOps :=
       [ {| ro_id := "refactor-001";
            ro_type := extract_method;
            ro_location := "src/services/data-processor.ts:45-120";
            ro_description := "Long method with multiple responsibilities";
            benefit := 75.9%float;
            effort := 2;
            ro_priority := rp_high |} ];
     securityRisks := CodeAnalytics.assessSecurityRisks "/workspace" |}.

Set Warnings "inexact-float".

(** Answers with a high-priority opportunity whose benefit is NaN, and a
    critical security risk. *)
Definition nan_benefit_answers : Answers :=
  {| cognitiveHealth := healthy_report;
     bottlenecks := [];
     debtAnalysis :=
       {| totalDebt := 0%float;
          debtByCategory := [];
          criticalIssues := [];
          td_recommendations := [];
          trend := stable |};
     refactoringOps :=
       [ {| ro_id := "refactor-001";
            ro_type := extract_method;
            ro_location := "src/services/data-processor.ts:45-120";
            ro_description := "Long method with multiple responsibilities";
            benefit := nan;
            effort := 2;
            ro_priority := rp_high |} ];
     securityRisks := securityRisks critical_risk_answers |}.

(** The number of helpful calls among [calls]. *)
Definition helpfulCalls (calls : list FeedbackCall) : Z :=
  Z.of_nat (length (List.filter fc_helpful calls)).

(** Two calls that both mark an insight helpful. *)
Definition two_helpful : list FeedbackCall :=
  [ {| fc_insightId := "quality-1700000000004-2"; fc_helpful := true;
       fc_comment := None |};
    {| fc_insightId := "security-1700000000008-1"; fc_helpful := true;
       fc_comment := Some "fixed" |} ].

(** What a generator hands back when it starts at read [lo]: insights
    whose ids are slotted on the reads it made, with tags among [tags], in
    order. *)
Definition pass (clock : Clock) (tags : list (string * string)) (lo : nat)
    (r : list GeneratedInsight * nat) : Prop :=
  (lo <= snd r)%nat /\
  Forall (slotted clock lo (snd r)) (fst r) /\
  (tag ∘ id <$> fst r) `sublist_of` tags.

(** Two passes within one millisecond; the health report worsens in
    between. *)
Definition first_pass : list GeneratedInsight * State :=
  generateInsights stalled (shipped_answers degraded_report) initial.

Definition second_pass : list GeneratedInsight * State :=
  generateInsights stalled (shipped_answers critical_report) (snd first_pass).

End InsightGeneration.

(** * Properties *)

(** ** Binary64 numbers

    Facts about [SpecFloat]'s operations, and through [FloatAxioms] about
    the operations on [float]: the comparisons follow one total order of
    the numbers other than NaN, the sign of a rounded difference is the
    sign of the difference, and a product or a sum of moderate size is
    within the relative error [2^-53] of the exact one. *)

Module Binary64Facts.

Import Binary64.

Lemma iter_pos_iter {A} (f : A -> A) p x :
  SpecFloat.iter_pos f p x = Pos.iter f x p.
Proof.
  revert x. induction p as [p IH | p IH |]; intros x; simpl.
  - rewrite !IH. rewrite <- !Pos.iter_swap. reflexivity.
  - by rewrite !IH.
  - reflexivity.
Qed.

Lemma shr_1_nonneg m r s :
  0 <= m ->
  shr_1 {| shr_m := m; shr_r := r; shr_s := s |}
  = {| shr_m := m / 2; shr_r := Z.odd m; shr_s := r || s |}.
Proof.
  intros Hm. destruct m as [| p | p]; [reflexivity | | lia].
  destruct p as [p | p |]; simpl shr_1; f_equal.
  - rewrite Pos2Z.inj_xI. apply Z.div_unique with 1; lia.
  - rewrite Pos2Z.inj_xO. apply Z.div_unique with 0; lia.
Qed.

Lemma iter_shr_1 M k :
  0 <= M ->
  Pos.iter shr_1 {| shr_m := M; shr_r := false; shr_s := false |} k
  = shifted M k.
Proof.
  intros HM. induction k as [| k IH] using Pos.peano_ind.
  - unfold Pos.iter. rewrite shr_1_nonneg by done. unfold shifted.
    change (2 ^ (1 - 1)) with 1. change (2 ^ 1) with 2.
    rewrite Z.div_1_r, Z.mod_1_r. reflexivity.
  - rewrite Pos.iter_succ, IH. unfold shifted.
    rewrite shr_1_nonneg by (apply Z.div_pos; lia).
    rewrite Pos2Z.inj_succ.
    replace (Z.succ (Zpos k) - 1) with (Zpos k) by lia.
    assert (Hk : Zpos k = (Zpos k - 1) + 1) by lia.
    set (j := Zpos k - 1) in *. assert (0 <= j) by lia. clearbody j.
    rewrite Hk. f_equal.
    + rewrite Z.div_div by lia. f_equal.
      replace (Z.succ (j + 1)) with (j + 1 + 1) by lia.
      rewrite (Z.pow_add_r 2 (j + 1) 1) by lia. reflexivity.
    + rewrite (Z.pow_add_r 2 j 1) by lia. change (2 ^ 1) with 2.
      rewrite Z.rem_mul_r by lia.
      rewrite (Zmod_odd (M / 2 ^ j)).
      pose proof (Z.mod_pos_bound M (2 ^ j) ltac:(lia)).
      destruct (Z.odd (M / 2 ^ j)),
               (Z.eqb_spec (M mod 2 ^ j) 0) as [E0 | E0];
        simpl; symmetry; rewrite ?negb_true_iff, ?negb_false_iff;
        rewrite ?Z.eqb_eq, ?Z.eqb_neq; nia.
Qed.

(** The integer [round_nearest_even] picks after [k] right shifts of [M]
    is within half a unit of [M / 2^k]. *)
Lemma round_shifted M k :
  0 <= M ->
  let m2 := round_nearest_even (shr_m (shifted M k))
              (loc_of_shr_record (shifted M k)) in
  M / 2 ^ Zpos k <= m2 <= M / 2 ^ Zpos k + 1 /\
  2 * Z.abs (m2 * 2 ^ Zpos k - M) <= 2 ^ Zpos k.
Proof.
  intros HM. unfold shifted. cbn [shr_m loc_of_shr_record].
  assert (Hk : Zpos k = (Zpos k - 1) + 1) by lia.
  set (j := Zpos k - 1) in *. assert (0 <= j) by lia. clearbody j.
  rewrite Hk. rewrite (Z.pow_add_r 2 j 1) by lia. change (2 ^ 1) with 2.
  assert (Hh : 0 < 2 ^ j) by (apply Z.pow_pos_nonneg; lia).
  set (h := 2 ^ j) in *. clearbody h.
  rewrite <- (Z.div_div M h 2) by lia.
  pose proof (Z.div_mod M h ltac:(lia)) as HMdiv.
  pose proof (Z.mod_pos_bound M h ltac:(lia)) as Hb.
  pose proof (Z.div_mod (M / h) 2 ltac:(lia)) as Hadiv.
  rewrite (Zmod_odd (M / h)) in Hadiv.
  set (a := M / h) in *. set (b := M mod h) in *. set (q := a / 2) in *.
  clearbody a b q.
  destruct (Z.odd a), (Z.eqb_spec b 0) as [E0 | E0]; cbn [negb];
    cbn [round_nearest_even]; try destruct (Z.even q); nia.
Qed.

Lemma fexp_eq z : fexp prec emax z = Z.max (z - 53) (-1074).
Proof. reflexivity. Qed.

Lemma digits2_pos_bounds m :
  2 ^ (Zpos (digits2_pos m) - 1) <= Zpos m < 2 ^ Zpos (digits2_pos m).
Proof.
  induction m as [m IH | m IH |]; cbn [digits2_pos].
  - rewrite Pos2Z.inj_succ, (Pos2Z.inj_xI m).
    replace (Z.succ (Zpos (digits2_pos m)) - 1)
      with (Zpos (digits2_pos m) - 1 + 1) by lia.
    rewrite Z.pow_succ_r by lia. rewrite Z.pow_add_r by lia.
    change (2 ^ 1) with 2.
    set (a := 2 ^ (Zpos (digits2_pos m) - 1)) in *.
    set (b := 2 ^ Zpos (digits2_pos m)) in *. clearbody a b. lia.
  - rewrite Pos2Z.inj_succ, (Pos2Z.inj_xO m).
    replace (Z.succ (Zpos (digits2_pos m)) - 1)
      with (Zpos (digits2_pos m) - 1 + 1) by lia.
    rewrite Z.pow_succ_r by lia. rewrite Z.pow_add_r by lia.
    change (2 ^ 1) with 2.
    set (a := 2 ^ (Zpos (digits2_pos m) - 1)) in *.
    set (b := 2 ^ Zpos (digits2_pos m)) in *. clearbody a b. lia.
  - change (2 ^ (1 - 1)) with 1. change (2 ^ 1) with 2. lia.
Qed.

Lemma digits2_pos_unique m k :
  2 ^ (k - 1) <= Zpos m < 2 ^ k -> Zpos (digits2_pos m) = k.
Proof.
  intros [Hl Hu]. pose proof (digits2_pos_bounds m) as [Hl' Hu'].
  set (d := Zpos (digits2_pos m)) in *.
  assert (0 < d) by (subst d; lia). clearbody d.
  assert (0 < k).
  { destruct k as [| k | k]; [change (2 ^ 0) with 1 in Hu; lia | lia |].
    rewrite Z.pow_neg_r in Hu by lia. lia. }
  destruct (Z.lt_trichotomy d k) as [Hlt | [-> | Hgt]]; [| reflexivity |].
  - pose proof (Z.pow_le_mono_r 2 d (k - 1) ltac:(lia) ltac:(lia)). lia.
  - pose proof (Z.pow_le_mono_r 2 k (d - 1) ltac:(lia) ltac:(lia)). lia.
Qed.

Lemma digits2_pos_le m k :
  0 <= k -> Zpos m < 2 ^ k -> Zpos (digits2_pos m) <= k.
Proof.
  intros Hk Hu. pose proof (digits2_pos_bounds m) as [Hl' _].
  set (d := Zpos (digits2_pos m)) in *. clearbody d.
  destruct (Z.leb_spec d k); [assumption|].
  pose proof (Z.pow_le_mono_r 2 k (d - 1) ltac:(lia) ltac:(lia)). lia.
Qed.

(** A mantissa that needs no shift is packed as it is. *)
Lemma binary_round_aux_exact s m e :
  fexp prec emax (Zpos (digits2_pos m) + e) <= e ->
  binary_round_aux prec emax s (Zpos m) e loc_Exact = pack s (Zpos m) e.
Proof.
  intros Hn. unfold binary_round_aux, shr_fexp.
  cbn [Zdigits2 shr_record_of_loc].
  assert (Hs : shr {| shr_m := Zpos m; shr_r := false; shr_s := false |} e
                 (fexp prec emax (Zpos (digits2_pos m) + e) - e)
               = ({| shr_m := Zpos m; shr_r := false; shr_s := false |}, e)).
  { unfold shr.
    destruct (fexp prec emax (Zpos (digits2_pos m) + e) - e) eqn:E;
      [reflexivity | lia | reflexivity]. }
  rewrite Hs. cbn [shr_m loc_of_shr_record round_nearest_even Zdigits2].
  rewrite Hs. reflexivity.
Qed.

(** A mantissa that is shifted right is rounded to an integer within half
    a unit of the last place kept. *)
Lemma binary_round_aux_inexact s m e :
  let e1 := fexp prec emax (Zpos (digits2_pos m) + e) in
  e < e1 ->
  exists m3 e3 : Z,
    binary_round_aux prec emax s (Zpos m) e loc_Exact = pack s m3 e3 /\
    0 <= m3 /\ e1 <= e3 <= e1 + 1 /\
    2 * Z.abs (m3 * 2 ^ (e3 - e) - Zpos m) <= 2 ^ (e1 - e) /\
    (-1074 <= e -> 0 < m3).
Proof.
  intros e1 Hn. unfold binary_round_aux, shr_fexp.
  cbn [Zdigits2 shr_record_of_loc]. fold e1.
  destruct (e1 - e) as [| k | k] eqn:Ek; [lia | | lia].
  unfold shr at 1. rewrite iter_pos_iter, iter_shr_1 by lia.
  pose proof (round_shifted (Zpos m) k ltac:(lia)) as Hr. cbv zeta in Hr.
  set (m2 := round_nearest_even _ _) in *. clearbody m2.
  destruct Hr as [[Hq1 Hq2] Herr].
  replace (e + Zpos k) with e1 by lia.
  pose proof (digits2_pos_bounds m) as [Hdl Hdu].
  set (d := Zpos (digits2_pos m)) in *.
  assert (Hd : 0 < d) by (subst d; lia).
  assert (He1 : e1 = Z.max (d + e - 53) (-1074)) by (subst e1; apply fexp_eq).
  assert (Hk53 : d - 53 <= Zpos k) by lia.
  assert (H2k : 0 < 2 ^ Zpos k) by (apply Z.pow_pos_nonneg; lia).
  assert (Hq : 0 <= Zpos m / 2 ^ Zpos k) by (apply Z.div_pos; lia).
  assert (Hqu : Zpos m / 2 ^ Zpos k < 2 ^ 53).
  { apply Z.div_lt_upper_bound; [lia|].
    rewrite <- Z.pow_add_r by lia.
    eapply Z.lt_le_trans; [exact Hdu|].
    apply Z.pow_le_mono_r; lia. }
  destruct (Z.eq_dec m2 (2 ^ 53)) as [E53 | N53].
  - (* the carry: one more shift *)
    exists (2 ^ 52), (e1 + 1). subst m2.
    change (Zdigits2 (2 ^ 53)) with 54.
    assert (En : fexp prec emax (54 + e1) - e1 = 1) by (rewrite fexp_eq; lia).
    rewrite En. split; [|split; [|split; [|split]]].
    + reflexivity.
    + lia.
    + lia.
    + replace (e1 + 1 - e) with (Zpos k + 1) by lia.
      rewrite Z.pow_add_r by lia. change (2 ^ 1) with 2.
      replace (e1 - e) with (Zpos k) by lia.
      change (2 ^ 53) with (2 ^ 52 * 2) in Herr. lia.
    + lia.
  - exists m2, e1.
    assert (Hm2 : 0 <= m2 < 2 ^ 53) by lia.
    assert (Hs : shr {| shr_m := m2; shr_r := false; shr_s := false |} e1
                   (fexp prec emax (Zdigits2 m2 + e1) - e1)
                 = ({| shr_m := m2; shr_r := false; shr_s := false |}, e1)).
    { unfold shr.
      destruct (fexp prec emax (Zdigits2 m2 + e1) - e1) eqn:E;
        [reflexivity | | reflexivity].
      exfalso. rewrite fexp_eq in E.
      destruct m2 as [| p2 | p2]; cbn [Zdigits2] in E; [lia | | lia].
      pose proof (digits2_pos_le p2 53 ltac:(lia) ltac:(lia)). lia. }
    rewrite Hs. cbn [shr_m]. split; [|split; [|split; [|split]]].
    + destruct m2; [reflexivity | reflexivity | lia].
    + lia.
    + lia.
    + replace (e1 - e) with (Zpos k) by lia. exact Herr.
    + intros Hemin.
      assert (Zpos k = d - 53) by lia.
      assert (2 ^ 52 <= Zpos m / 2 ^ Zpos k); [|lia].
      apply Z.div_le_lower_bound; [lia|].
      rewrite <- Z.pow_add_r by lia.
      eapply Z.le_trans; [|exact Hdl].
      apply Z.pow_le_mono_r; lia.
Qed.

(** *** Order *)

Lemma emin_eq : emin = -1074.
Proof. reflexivity. Qed.

Lemma valid_finite s m e :
  valid_binary (S754_finite s m e) = true ->
  -1074 <= e <= 971 /\
  Zpos (digits2_pos m) <= 53 /\
  (Zpos (digits2_pos m) = 53 \/ e = -1074).
Proof.
  unfold SpecFloat.valid_binary, bounded, canonical_mantissa.
  rewrite andb_true_iff, Z.eqb_eq, Z.leb_le, fexp_eq.
  change (emax - prec) with 971. lia.
Qed.

Lemma two_power_pos k : 0 <= k -> 0 < 2 ^ k.
Proof. intros. apply Z.pow_pos_nonneg; lia. Qed.

(** Among valid mantissa-exponent pairs, the smaller exponent is the
    smaller number. *)
Lemma scaled_exponent_lt s1 m1 e1 s2 m2 e2 :
  valid_binary (S754_finite s1 m1 e1) = true ->
  valid_binary (S754_finite s2 m2 e2) = true ->
  e1 < e2 ->
  Zpos m1 * 2 ^ (e1 - emin) < Zpos m2 * 2 ^ (e2 - emin).
Proof.
  intros H1 H2 Hlt. apply valid_finite in H1, H2. rewrite emin_eq.
  destruct H1 as (He1 & Hd1 & _), H2 as (He2 & _ & Hc2).
  pose proof (digits2_pos_bounds m1) as [_ Hu1].
  pose proof (digits2_pos_bounds m2) as [Hl2 _].
  assert (Hd2 : Zpos (digits2_pos m2) = 53) by lia.
  rewrite Hd2 in Hl2. change (2 ^ (53 - 1)) with (2 ^ 52) in Hl2.
  assert (Hm1 : Zpos m1 < 2 ^ 53).
  { eapply Z.lt_le_trans; [exact Hu1|]. apply Z.pow_le_mono_r; lia. }
  replace (e2 - -1074) with ((e1 - -1074) + (e2 - e1)) by lia.
  rewrite Z.pow_add_r by lia.
  pose proof (two_power_pos (e1 - -1074) ltac:(lia)) as Ha.
  pose proof (Z.pow_le_mono_r 2 1 (e2 - e1) ltac:(lia) ltac:(lia)) as Hb.
  change (2 ^ 1) with 2 in Hb. change (2 ^ 53) with (2 ^ 52 * 2) in Hm1.
  set (a := 2 ^ (e1 - -1074)) in *. set (b := 2 ^ (e2 - e1)) in *.
  set (c := 2 ^ 52) in *. clearbody a b c.
  assert (Zpos m1 * a < c * 2 * a) by (apply Z.mul_lt_mono_pos_r; lia).
  assert (c * 2 * a <= Zpos m2 * 2 * a) by (apply Z.mul_le_mono_nonneg_r; lia).
  assert (Zpos m2 * a * 2 <= Zpos m2 * a * b)
    by (apply Z.mul_le_mono_nonneg_l; nia).
  lia.
Qed.

Lemma scaled_magnitude_compare s1 m1 e1 s2 m2 e2 :
  valid_binary (S754_finite s1 m1 e1) = true ->
  valid_binary (S754_finite s2 m2 e2) = true ->
  match e1 ?= e2 with
  | Lt => Lt
  | Gt => Gt
  | Eq => Pos.compare_cont Eq m1 m2
  end
  = (Zpos m1 * 2 ^ (e1 - emin) ?= Zpos m2 * 2 ^ (e2 - emin)).
Proof.
  intros H1 H2. destruct (Z.compare_spec e1 e2) as [-> | Hlt | Hgt].
  - pose proof (valid_finite _ _ _ H2) as (He & _).
    rewrite <- Zmult_compare_compat_r
      by (apply Z.lt_gt, two_power_pos; rewrite emin_eq; lia).
    reflexivity.
  - symmetry. apply Z.compare_lt_iff.
    by apply (scaled_exponent_lt s1 m1 e1 s2 m2 e2).
  - symmetry. apply Z.compare_gt_iff.
    by apply (scaled_exponent_lt s2 m2 e2 s1 m1 e1).
Qed.

Lemma scaled_finite_bounds s m e :
  valid_binary (S754_finite s m e) = true ->
  0 < Zpos m * 2 ^ (e - emin) < 2 ^ 2100.
Proof.
  intros H. apply valid_finite in H as (He & Hd & _). rewrite emin_eq.
  pose proof (digits2_pos_bounds m) as [_ Hu].
  assert (Hm : Zpos m < 2 ^ 53).
  { eapply Z.lt_le_trans; [exact Hu|]. apply Z.pow_le_mono_r; lia. }
  pose proof (two_power_pos (e - -1074) ltac:(lia)) as Ha.
  pose proof (Z.pow_le_mono_r 2 (e - -1074) 2045 ltac:(lia) ltac:(lia)) as Hb.
  split; [lia|].
  change (2 ^ 2100) with (2 ^ 53 * 2 ^ 2045 * 2 ^ 2).
  set (a := 2 ^ (e - -1074)) in *. set (b := 2 ^ 2045) in *.
  set (c := 2 ^ 53) in *.
  assert (0 < b) by (subst b; apply two_power_pos; lia).
  assert (0 < c) by (subst c; apply two_power_pos; lia).
  change (2 ^ 2) with 4. clearbody a b c. nia.
Qed.

(** The comparison of two numbers is the comparison of their ranks. *)
Lemma SFcompare_rank x y :
  valid_binary x = true -> valid_binary y = true ->
  x <> S754_nan -> y <> S754_nan ->
  SFcompare x y = Some (rank x ?= rank y).
Proof.
  intros Hx Hy Nx Ny.
  destruct x as [sx | sx | | sx mx ex]; [| | congruence |];
    destruct y as [sy | sy | | sy my ey]; try congruence;
    try pose proof (scaled_finite_bounds _ _ _ Hx) as Bx;
    try pose proof (scaled_finite_bounds _ _ _ Hy) as By;
    cbn [SFcompare rank scaled]; f_equal.
  - destruct sy; vm_compute; reflexivity.
  - destruct sy; cbn [cond_Zopp]; symmetry;
      [apply Z.compare_gt_iff | apply Z.compare_lt_iff]; lia.
  - destruct sx; vm_compute; reflexivity.
  - destruct sx, sy; vm_compute; reflexivity.
  - destruct sx; cbn [cond_Zopp]; symmetry;
      [apply Z.compare_lt_iff | apply Z.compare_gt_iff];
      destruct sy; cbn [cond_Zopp]; lia.
  - destruct sx; cbn [cond_Zopp]; symmetry;
      [apply Z.compare_lt_iff | apply Z.compare_gt_iff]; lia.
  - destruct sy; cbn [cond_Zopp]; symmetry;
      [apply Z.compare_gt_iff | apply Z.compare_lt_iff];
      destruct sx; cbn [cond_Zopp]; lia.
  - destruct sx, sy; cbn [cond_Zopp].
    + rewrite Z.compare_opp.
      rewrite <- (scaled_magnitude_compare true my ey true mx ex) by done.
      rewrite (Z.compare_antisym ey ex), (Pos.compare_cont_antisym).
      destruct (ey ?= ex); reflexivity.
    + symmetry. apply Z.compare_lt_iff. lia.
    + symmetry. apply Z.compare_gt_iff. lia.
    + by apply (scaled_magnitude_compare false mx ex false my ey).
Qed.

(** *** Rounding *)

Lemma iter_xO m d : Zpos (Pos.iter xO m d) = Zpos m * 2 ^ Zpos d.
Proof.
  induction d as [| d IH] using Pos.peano_ind.
  - unfold Pos.iter. change (2 ^ 1) with 2. lia.
  - rewrite Pos.iter_succ, Pos2Z.inj_xO, IH, Pos2Z.inj_succ.
    rewrite Z.pow_succ_r by lia. lia.
Qed.

(** [shl_align] keeps the number and lowers the exponent to [e'] when it
    is below [e]. *)
Lemma shl_align_spec m e e' :
  let '(m', e'') := shl_align m e e' in
  e'' = Z.min e e' /\ Zpos m' = Zpos m * 2 ^ (e - e'').
Proof.
  unfold shl_align. destruct (e' - e) as [| d | d] eqn:E.
  - split; [lia|]. rewrite Z.sub_diag. change (2 ^ 0) with 1. lia.
  - split; [lia|]. rewrite Z.sub_diag. change (2 ^ 0) with 1. lia.
  - split; [lia|]. rewrite iter_xO. f_equal. f_equal. lia.
Qed.

Lemma shl_align_fst m e e' :
  e' <= e -> Zpos (fst (shl_align m e e')) = Zpos m * 2 ^ (e - e').
Proof.
  intros Hle. pose proof (shl_align_spec m e e') as H.
  destruct (shl_align m e e') as [m' e'']. destruct H as [-> Hm].
  cbn [fst]. rewrite Hm. f_equal. f_equal. lia.
Qed.

(** What [binary_round_aux] returns on an exact mantissa. *)
Lemma binary_round_aux_pack s m e :
  let e1 := fexp prec emax (Zpos (digits2_pos m) + e) in
  exists m3 e3 : Z,
    binary_round_aux prec emax s (Zpos m) e loc_Exact = pack s m3 e3 /\
    0 <= m3 /\ (-1074 <= e -> 0 < m3) /\
    (e1 <= e /\ m3 = Zpos m /\ e3 = e \/
     e < e1 /\ e1 <= e3 <= e1 + 1 /\
     2 * Z.abs (m3 * 2 ^ (e3 - e) - Zpos m) <= 2 ^ (e1 - e)).
Proof.
  intros e1. destruct (Z.leb_spec e1 e) as [Hle | Hlt].
  - exists (Zpos m), e. rewrite binary_round_aux_exact by done.
    split; [reflexivity|]. split; [lia|]. split; [lia|]. left. done.
  - destruct (binary_round_aux_inexact s m e Hlt)
      as (m3 & e3 & -> & H0 & He3 & Herr & Hpos).
    exists m3, e3. split; [reflexivity|]. split; [done|]. split; [done|].
    right. done.
Qed.

Lemma above_zero_pack s m e :
  0 <= m -> above_zero (pack s m e) = negb s && (0 <? m).
Proof.
  intros Hm. destruct m as [| p | p]; [by destruct s | | lia].
  cbn [pack]. destruct (e <=? emax - prec), s; reflexivity.
Qed.

(** Rounding a positive integer multiple of [2^e], with [e] no less than
    the least exponent, never gives zero. *)
Lemma above_zero_binary_round s m e :
  -1074 <= e -> above_zero (binary_round prec emax s m e) = negb s.
Proof.
  intros He. unfold binary_round.
  pose proof (shl_align_spec m e
                (fexp prec emax (Zpos (digits2_pos m) + e))) as H.
  destruct (shl_align _ _ _) as [mz ez]. destruct H as [Hez _].
  rewrite fexp_eq in Hez.
  destruct (binary_round_aux_pack s mz ez) as (m3 & e3 & -> & H0 & Hpos & _).
  rewrite above_zero_pack by done.
  assert (0 < m3) by (apply Hpos; lia).
  destruct (Z.ltb_spec 0 m3); [|lia]. by destruct s.
Qed.

Lemma SFltb_zero x : SFltb (S754_zero false) x = above_zero x.
Proof. destruct x as [s | s | | s m e]; try destruct s; reflexivity. Qed.

Lemma SFltb_rank x y :
  valid_binary x = true -> valid_binary y = true ->
  x <> S754_nan -> y <> S754_nan ->
  SFltb x y = (rank x <? rank y).
Proof.
  intros. unfold SFltb. rewrite SFcompare_rank by done.
  unfold Z.ltb. by destruct (rank x ?= rank y).
Qed.

Lemma SFleb_rank x y :
  valid_binary x = true -> valid_binary y = true ->
  x <> S754_nan -> y <> S754_nan ->
  SFleb x y = (rank x <=? rank y).
Proof.
  intros. unfold SFleb. rewrite SFcompare_rank by done.
  unfold Z.leb. by destruct (rank x ?= rank y).
Qed.

Lemma SFeqb_rank x y :
  valid_binary x = true -> valid_binary y = true ->
  x <> S754_nan -> y <> S754_nan ->
  SFeqb x y = (rank x =? rank y).
Proof.
  intros. unfold SFeqb. rewrite SFcompare_rank by done.
  unfold Z.eqb at 1. rewrite <- Z.eqb_compare.
  unfold Z.eqb. by destruct (rank x ?= rank y).
Qed.

(** The difference [y - x] is above zero exactly when [x] is below
    [y]. *)
Lemma above_zero_SFsub x y :
  valid_binary x = true -> valid_binary y = true ->
  x <> S754_nan -> y <> S754_nan ->
  above_zero (SF64sub y x) = (rank x <? rank y).
Proof.
  intros Hx Hy Nx Ny.
  destruct x as [sx | sx | | sx mx ex]; [| | congruence |];
    destruct y as [sy | sy | | sy my ey]; try congruence;
    try pose proof (scaled_finite_bounds _ _ _ Hx) as Bx;
    try pose proof (scaled_finite_bounds _ _ _ Hy) as By;
    unfold SF64sub; cbn [SFsub rank scaled].
  - by destruct sy, sx.
  - destruct sy; vm_compute; reflexivity.
  - destruct sy; cbn [above_zero cond_Zopp]; symmetry;
      [apply Z.ltb_ge | apply Z.ltb_lt]; lia.
  - destruct sx; vm_compute; reflexivity.
  - destruct sy, sx; vm_compute; reflexivity.
  - destruct sx; cbn [above_zero negb cond_Zopp]; symmetry;
      [apply Z.ltb_lt | apply Z.ltb_ge];
      destruct sy; cbn [cond_Zopp]; lia.
  - destruct sx; cbn [above_zero negb cond_Zopp]; symmetry;
      [apply Z.ltb_lt | apply Z.ltb_ge]; lia.
  - destruct sy; cbn [above_zero cond_Zopp]; symmetry;
      [apply Z.ltb_ge | apply Z.ltb_lt];
      destruct sx; cbn [cond_Zopp]; lia.
  - pose proof (valid_finite _ _ _ Hx) as (Hex & _).
    pose proof (valid_finite _ _ _ Hy) as (Hey & _).
    cbv zeta. set (ez := Z.min ey ex).
    rewrite !shl_align_fst by lia.
    set (D := cond_Zopp sy (Zpos my * 2 ^ (ey - ez))
              - cond_Zopp sx (Zpos mx * 2 ^ (ex - ez))).
    assert (HD : D * 2 ^ (ez - emin)
                 = cond_Zopp sy (Zpos my * 2 ^ (ey - emin))
                   - cond_Zopp sx (Zpos mx * 2 ^ (ex - emin))).
    { subst D. rewrite emin_eq.
      replace (ey - -1074) with ((ey - ez) + (ez - -1074)) by lia.
      replace (ex - -1074) with ((ex - ez) + (ez - -1074)) by lia.
      rewrite !Z.pow_add_r by lia.
      destruct sy, sx; cbn [cond_Zopp]; ring. }
    pose proof (two_power_pos (ez - emin) ltac:(rewrite emin_eq; lia)) as Hp.
    set (p := 2 ^ (ez - emin)) in *. clearbody p.
    set (ry := cond_Zopp sy (Zpos my * 2 ^ (ey - emin))) in *.
    set (rx := cond_Zopp sx (Zpos mx * 2 ^ (ex - emin))) in *.
    clearbody ry rx.
    destruct D as [| d | d] eqn:ED; cbn [binary_normalize].
    + symmetry. apply Z.ltb_ge. lia.
    + rewrite above_zero_binary_round by lia. symmetry.
      apply Z.ltb_lt. nia.
    + rewrite above_zero_binary_round by lia. symmetry.
      apply Z.ltb_ge. nia.
Qed.

(** *** The comparisons of binary64 numbers *)

Lemma is_nan_false x : is_nan x = false <-> Prim2SF x <> S754_nan.
Proof.
  unfold is_nan. rewrite negb_false_iff, FloatAxioms.eqb_spec. split.
  - intros He Hn. rewrite Hn in He. discriminate.
  - intros Hn. rewrite SFeqb_rank by (done || apply Prim2SF_valid).
    apply Z.eqb_refl.
Qed.

Lemma ltb_order x y :
  is_nan x = false -> is_nan y = false ->
  (x <? y)%float = (order x <? order y).
Proof.
  rewrite !is_nan_false. intros. rewrite FloatAxioms.ltb_spec.
  apply SFltb_rank; done || apply Prim2SF_valid.
Qed.

Lemma leb_order x y :
  is_nan x = false -> is_nan y = false ->
  (x <=? y)%float = (order x <=? order y).
Proof.
  rewrite !is_nan_false. intros. rewrite FloatAxioms.leb_spec.
  apply SFleb_rank; done || apply Prim2SF_valid.
Qed.

Lemma eqb_order x y :
  is_nan x = false -> is_nan y = false ->
  (x =? y)%float = (order x =? order y).
Proof.
  rewrite !is_nan_false. intros. rewrite FloatAxioms.eqb_spec.
  apply SFeqb_rank; done || apply Prim2SF_valid.
Qed.

Lemma eqb_true_not_nan x y :
  (x =? y)%float = true -> is_nan x = false /\ is_nan y = false.
Proof.
  rewrite FloatAxioms.eqb_spec, !is_nan_false. unfold SFeqb. intros He.
  split; intros Hn; rewrite Hn in He; [done|].
  by destruct (Prim2SF x).
Qed.

Lemma leb_true_not_nan x y :
  (x <=? y)%float = true -> is_nan x = false /\ is_nan y = false.
Proof.
  rewrite FloatAxioms.leb_spec, !is_nan_false. unfold SFleb. intros He.
  split; intros Hn; rewrite Hn in He; [done|].
  by destruct (Prim2SF x).
Qed.

Lemma ltb_true_not_nan x y :
  (x <? y)%float = true -> is_nan x = false /\ is_nan y = false.
Proof.
  rewrite FloatAxioms.ltb_spec, !is_nan_false. unfold SFltb. intros He.
  split; intros Hn; rewrite Hn in He; [done|].
  by destruct (Prim2SF x).
Qed.

Lemma pack_not_nan s m e : 0 <= m -> pack s m e <> S754_nan.
Proof.
  intros Hm. destruct m as [| p | p]; [done | | lia].
  cbn [pack]. by destruct (e <=? emax - prec).
Qed.

(** A product is NaN only when a factor is, or when one factor is a zero
    and the other an infinity. *)
Lemma SFmul_not_nan x y :
  x <> S754_nan -> y <> S754_nan ->
  (exists s m e, x = S754_finite s m e) \/
  (exists s m e, y = S754_finite s m e) ->
  SF64mul x y <> S754_nan.
Proof.
  intros Nx Ny Hr. unfold SF64mul.
  destruct x as [sx | sx | | sx mx ex]; [| | done |];
    destruct y as [sy | sy | | sy my ey]; try done;
    try (by destruct Hr as [(? & ? & ? & ?) | (? & ? & ? & ?)]).
  cbn [SFmul].
  destruct (binary_round_aux_pack (xorb sx sy) (mx * my) (ex + ey))
    as (m3 & e3 & -> & H0 & _).
  by apply pack_not_nan.
Qed.

Lemma mul_regular_l x y :
  isRegular x = true -> is_nan y = false -> is_nan (x * y) = false.
Proof.
  unfold isRegular. rewrite !is_nan_false, mul_spec. intros Hx Hy.
  apply SFmul_not_nan; [by destruct (Prim2SF x) | done |].
  left. destruct (Prim2SF x); try done. by eexists _, _, _.
Qed.

Lemma mul_regular_r x y :
  is_nan x = false -> isRegular y = true -> is_nan (x * y) = false.
Proof.
  unfold isRegular. rewrite !is_nan_false, mul_spec. intros Hx Hy.
  apply SFmul_not_nan; [done | by destruct (Prim2SF y) |].
  right. destruct (Prim2SF y); try done. by eexists _, _, _.
Qed.

(** [y - x > 0] exactly when [x < y]: on numbers, the sign of the rounded
    difference is the sign of the difference. *)
Lemma sub_above_zero x y :
  is_nan x = false -> is_nan y = false ->
  (0 <? y - x)%float = (order x <? order y).
Proof.
  rewrite !is_nan_false. intros Hx Hy.
  rewrite FloatAxioms.ltb_spec, FloatAxioms.sub_spec. change (Prim2SF 0) with (S754_zero false).
  rewrite SFltb_zero. apply above_zero_SFsub; done || apply Prim2SF_valid.
Qed.

(** *** Values *)

Lemma pow2_pos e : (0 < pow2 e)%Q.
Proof. apply Qpower_0_lt. reflexivity. Qed.

Lemma pow2_add a b : (pow2 (a + b) == pow2 a * pow2 b)%Q.
Proof. apply Qpower_plus. discriminate. Qed.

Lemma pow2_le a b : a <= b -> (pow2 a <= pow2 b)%Q.
Proof. intros. apply Qpower_le_compat_l; [done | discriminate]. Qed.

Lemma pow2_le_inv a b : (pow2 a <= pow2 b)%Q -> a <= b.
Proof. intros. by apply (Qpower_le_compat_l_inv 2). Qed.

Lemma pow2_Z k : 0 <= k -> (inject_Z (2 ^ k) == pow2 k)%Q.
Proof. intros. by apply Zpower_Qpower. Qed.

Lemma pow2_max a b : (pow2 (Z.max a b) <= pow2 a + pow2 b)%Q.
Proof.
  pose proof (pow2_pos a). pose proof (pow2_pos b).
  destruct (Z.max_spec a b) as [[_ ->] | [_ ->]]; lra.
Qed.

Lemma Qabs_inject_Z z : Qabs (inject_Z z) = inject_Z (Z.abs z).
Proof. reflexivity. Qed.

Lemma value_pack s m e :
  0 <= m -> e <= 971 ->
  finite (pack s m e) = true /\
  (value (pack s m e)
   == if s then - (inject_Z m * pow2 e) else inject_Z m * pow2 e)%Q.
Proof.
  intros Hm He. destruct m as [| p | p]; [| | lia]; cbn [pack].
  - split; [reflexivity|]. cbn [value]. destruct s; ring.
  - change (emax - prec) with 971. destruct (Z.leb_spec e 971); [|lia].
    split; [reflexivity|]. cbn [value]. destruct s; cbn [cond_Zopp].
    + change (- Zpos p) with (Z.opp (Zpos p)). rewrite inject_Z_opp. ring.
    + reflexivity.
Qed.

Lemma digits2_pos_pow2 m :
  (pow2 (Zpos (digits2_pos m) - 1) <= inject_Z (Zpos m))%Q.
Proof.
  pose proof (digits2_pos_bounds m) as [Hl _].
  rewrite <- pow2_Z by lia. by rewrite <- Zle_Qle.
Qed.

(** [binary_round_aux] on an exact product or sum of moderate size: the
    result is finite and within the relative error [2^-53], or the absolute
    error [2^-1075], of the exact number. *)
Lemma binary_round_aux_value s m e :
  let z := (inject_Z (Zpos m) * pow2 e)%Q in
  (z <= pow2 11)%Q ->
  exists r : Q,
    finite (binary_round_aux prec emax s (Zpos m) e loc_Exact) = true /\
    (value (binary_round_aux prec emax s (Zpos m) e loc_Exact)
     == if s then - r else r)%Q /\
    (0 <= r)%Q /\
    (z - (unit_roundoff * z + half_least) <= r)%Q /\
    (r <= z + (unit_roundoff * z + half_least))%Q.
Proof.
  intros z Hz.
  pose proof (pow2_pos e) as HP.
  pose proof (digits2_pos_pow2 m) as Hd.
  set (d := Zpos (digits2_pos m)) in *.
  assert (Hd1 : 1 <= d) by (subst d; lia).
  assert (Hde : d - 1 + e <= 11).
  { apply pow2_le_inv. rewrite pow2_add. eapply Qle_trans; [|exact Hz].
    subst z. apply Qmult_le_compat_r; [exact Hd | lra]. }
  assert (Hz0 : (0 < z)%Q).
  { subst z. apply Qmult_lt_0_compat; [reflexivity | exact HP]. }
  assert (Hu : (0 < unit_roundoff)%Q) by apply pow2_pos.
  assert (Hh : (0 < half_least)%Q) by apply pow2_pos.
  assert (Huz : (0 <= unit_roundoff * z)%Q).
  { apply Qmult_le_0_compat; lra. }
  destruct (binary_round_aux_pack s m e)
    as (m3 & e3 & -> & H0 & _ & [(Hle & -> & ->) | (Hlt & He3 & Herr)]).
  - exists z.
    destruct (value_pack s (Zpos m) e ltac:(lia) ltac:(lia)) as [Hf Hv].
    split; [exact Hf|]. split; [exact Hv|]. lra.
  - fold d in Hlt, He3, Herr. rewrite fexp_eq in Hlt, He3, Herr.
    set (e1 := Z.max (d + e - 53) (-1074)) in *.
    exists (inject_Z m3 * pow2 e3)%Q.
    destruct (value_pack s m3 e3 ltac:(lia) ltac:(lia)) as [Hf Hv].
    split; [exact Hf|]. split; [exact Hv|].
    assert (Hr0 : (0 <= inject_Z m3 * pow2 e3)%Q).
    { apply Qmult_le_0_compat; [|pose proof (pow2_pos e3); lra].
      change 0%Q with (inject_Z 0). by rewrite <- Zle_Qle. }
    split; [exact Hr0|].
    (* the integer bound, as rationals *)
    assert (Hb : (pow2 e1 <= 2 * (unit_roundoff * z + half_least))%Q).
    { eapply Qle_trans; [apply pow2_max|].
      replace (d + e - 53) with ((-53 + 1) + (d - 1 + e)) by lia.
      rewrite (pow2_add (-53 + 1)), (pow2_add (-53) 1), (pow2_add (d - 1) e).
      change (pow2 (-1074)) with (pow2 (1 + -1075)).
      rewrite (pow2_add 1 (-1075)). change (pow2 1) with 2%Q.
      fold unit_roundoff half_least.
      assert ((pow2 (d - 1) * pow2 e <= z)%Q).
      { subst z. apply Qmult_le_compat_r; [exact Hd | lra]. }
      set (w := (pow2 (d - 1) * pow2 e)%Q) in *.
      assert ((unit_roundoff * w <= unit_roundoff * z)%Q).
      { apply Qmult_le_l; [exact Hu | done]. }
      lra. }
    assert (Hk3 : 0 <= e3 - e) by lia.
    assert (Hk1 : 0 <= e1 - e) by lia.
    assert (Hq : (2 * Qabs (inject_Z m3 * pow2 (e3 - e) - inject_Z (Zpos m))
                  <= pow2 (e1 - e))%Q).
    { rewrite <- !pow2_Z by lia. rewrite <- inject_Z_mult.
      unfold Qminus. rewrite <- inject_Z_opp, <- inject_Z_plus.
      rewrite Qabs_inject_Z. change 2%Q with (inject_Z 2).
      rewrite <- inject_Z_mult. rewrite <- Zle_Qle. exact Herr. }
    assert (Hs : (2 * Qabs (inject_Z m3 * pow2 e3 - z) <= pow2 e1)%Q).
    { replace e3 with ((e3 - e) + e) by lia.
      replace e1 with ((e1 - e) + e) by lia.
      rewrite !pow2_add. subst z.
      setoid_replace (inject_Z m3 * (pow2 (e3 - e) * pow2 e)
                      - inject_Z (Zpos m) * pow2 e)%Q
        with ((inject_Z m3 * pow2 (e3 - e) - inject_Z (Zpos m)) * pow2 e)%Q
        using relation Qeq by ring.
      rewrite Qabs_Qmult, (Qabs_pos (pow2 e)) by lra.
      rewrite Qmult_assoc. apply Qmult_le_compat_r; [exact Hq | lra]. }
    assert (Ha : (Qabs (inject_Z m3 * pow2 e3 - z)
                  <= unit_roundoff * z + half_least)%Q) by lra.
    apply Qabs_diff_Qle_condition in Ha. lra.
Qed.

Lemma binary_round_value s m e :
  let z := (inject_Z (Zpos m) * pow2 e)%Q in
  (z <= pow2 11)%Q ->
  exists r : Q,
    finite (binary_round prec emax s m e) = true /\
    (value (binary_round prec emax s m e) == if s then - r else r)%Q /\
    (0 <= r)%Q /\
    (z - (unit_roundoff * z + half_least) <= r)%Q /\
    (r <= z + (unit_roundoff * z + half_least))%Q.
Proof.
  intros z Hz. unfold binary_round.
  pose proof (shl_align_spec m e
                (fexp prec emax (Zpos (digits2_pos m) + e))) as H.
  destruct (shl_align _ _ _) as [mz ez]. destruct H as [Hez Hmz].
  assert (Hzz : (inject_Z (Zpos mz) * pow2 ez == z)%Q).
  { subst z. rewrite Hmz, inject_Z_mult, pow2_Z by lia.
    rewrite <- Qmult_assoc, <- pow2_add.
    replace (e - ez + ez) with e by lia. reflexivity. }
  destruct (binary_round_aux_value s mz ez) as (r & Hf & Hv & H0 & Hl & Hu).
  { by rewrite Hzz. }
  exists r. rewrite Hzz in Hl, Hu. done.
Qed.

Lemma value_nonneg_sign s m e :
  (0 <= value (S754_finite s m e))%Q -> s = false.
Proof.
  destruct s; [|reflexivity]. cbn [value cond_Zopp]. intros H.
  pose proof (pow2_pos e) as HP.
  change (- Zpos m) with (Z.opp (Zpos m)) in H. rewrite inject_Z_opp in H.
  assert ((0 < inject_Z (Zpos m) * pow2 e)%Q).
  { apply Qmult_lt_0_compat; [reflexivity | exact HP]. }
  lra.
Qed.

(** The product of two finite numbers that are not negative, when it is
    of moderate size. *)
Lemma SFmul_value x y :
  finite x = true -> finite y = true ->
  (0 <= value x)%Q -> (0 <= value y)%Q ->
  let z := (value x * value y)%Q in
  (z <= pow2 11)%Q ->
  finite (SF64mul x y) = true /\
  (0 <= value (SF64mul x y))%Q /\
  (z - (unit_roundoff * z + half_least) <= value (SF64mul x y))%Q /\
  (value (SF64mul x y) <= z + (unit_roundoff * z + half_least))%Q.
Proof.
  intros Fx Fy Hx Hy z Hz.
  assert (Hu : (0 < unit_roundoff)%Q) by apply pow2_pos.
  assert (Hh : (0 < half_least)%Q) by apply pow2_pos.
  destruct x as [sx | sx | | sx mx ex]; try discriminate;
    destruct y as [sy | sy | | sy my ey]; try discriminate;
    unfold SF64mul; cbn [SFmul].
  - subst z. cbn [value finite] in *. split; [done|]. lra.
  - subst z. cbn [value finite] in *. split; [done|]. lra.
  - subst z. cbn [value finite] in *. split; [done|]. lra.
  - apply value_nonneg_sign in Hx as ->. apply value_nonneg_sign in Hy as ->.
    cbn [xorb].
    assert (Hzz : (inject_Z (Zpos (mx * my)) * pow2 (ex + ey) == z)%Q).
    { subst z. cbn [value cond_Zopp].
      rewrite Pos2Z.inj_mul, inject_Z_mult, pow2_add. ring. }
    destruct (binary_round_aux_value false (mx * my) (ex + ey))
      as (r & Hf & Hv & H0 & Hl & Hr).
    { by rewrite Hzz. }
    rewrite Hzz in Hl, Hr. rewrite Hv. done.
Qed.

(** The sum of two finite numbers that are not negative, when it is of
    moderate size. *)
Lemma SFadd_value x y :
  finite x = true -> finite y = true ->
  (0 <= value x)%Q -> (0 <= value y)%Q ->
  let z := (value x + value y)%Q in
  (z <= pow2 11)%Q ->
  finite (SF64add x y) = true /\
  (0 <= value (SF64add x y))%Q /\
  (z - (unit_roundoff * z + half_least) <= value (SF64add x y))%Q /\
  (value (SF64add x y) <= z + (unit_roundoff * z + half_least))%Q.
Proof.
  intros Fx Fy Hx Hy z Hz.
  assert (Hu : (0 < unit_roundoff)%Q) by apply pow2_pos.
  assert (Hh : (0 < half_least)%Q) by apply pow2_pos.
  destruct x as [sx | sx | | sx mx ex]; try discriminate;
    destruct y as [sy | sy | | sy my ey]; try discriminate;
    unfold SF64add; cbn [SFadd].
  - subst z. split; [by destruct sx, sy|].
    destruct sx, sy; cbn [value] in *; lra.
  - assert (Huz : (0 <= unit_roundoff * z)%Q)
      by (apply Qmult_le_0_compat; subst z; cbn [value] in *; lra).
    subst z. cbn [value finite] in *. split; [done|]. lra.
  - assert (Huz : (0 <= unit_roundoff * z)%Q)
      by (apply Qmult_le_0_compat; subst z; cbn [value] in *; lra).
    subst z. cbn [value finite] in *. split; [done|]. lra.
  - apply value_nonneg_sign in Hx as ->. apply value_nonneg_sign in Hy as ->.
    cbv zeta. set (ez := Z.min ex ey).
    rewrite !shl_align_fst by lia. cbn [cond_Zopp].
    assert (Hpx : 0 < 2 ^ (ex - ez)) by (apply two_power_pos; lia).
    assert (Hpy : 0 < 2 ^ (ey - ez)) by (apply two_power_pos; lia).
    destruct (Zpos mx * 2 ^ (ex - ez) + Zpos my * 2 ^ (ey - ez))
      as [| p | p] eqn:Ep; [lia | | lia].
    cbn [binary_normalize].
    assert (Hzz : (inject_Z (Zpos p) * pow2 ez == z)%Q).
    { subst z. cbn [value cond_Zopp]. rewrite <- Ep.
      rewrite inject_Z_plus, !inject_Z_mult, !pow2_Z by lia.
      rewrite Qmult_plus_distr_l, <- !Qmult_assoc, <- !pow2_add.
      replace (ex - ez + ez) with ex by lia.
      replace (ey - ez + ez) with ey by lia. reflexivity. }
    destruct (binary_round_value false p ez) as (r & Hf & Hv & H0 & Hl & Hr).
    { by rewrite Hzz. }
    rewrite Hzz in Hl, Hr. rewrite Hv. done.
Qed.

Lemma value_scaled x :
  valid_binary x = true ->
  (value x == inject_Z (scaled x) * pow2 (-1074))%Q.
Proof.
  intros Hx. destruct x as [s | s | | s m e]; cbn [value scaled];
    try (rewrite Qmult_0_l; reflexivity).
  apply valid_finite in Hx as (He & _). rewrite emin_eq.
  assert (E : (inject_Z (cond_Zopp s (Zpos m * 2 ^ (e - -1074)))
               == inject_Z (cond_Zopp s (Zpos m)) * pow2 (e - -1074))%Q).
  { destruct s; cbn [cond_Zopp].
    - rewrite <- Z.mul_opp_l, inject_Z_mult, pow2_Z by lia. reflexivity.
    - rewrite inject_Z_mult, pow2_Z by lia. reflexivity. }
  rewrite E, <- Qmult_assoc, <- pow2_add.
  replace (e - -1074 + -1074) with e by lia. reflexivity.
Qed.

(** A number between two finite numbers is finite, and so is its
    value. *)
Lemma between_finite lo x hi :
  isFinite lo = true -> isFinite hi = true ->
  (lo <=? x)%float = true -> (x <=? hi)%float = true ->
  isFinite x = true /\ (toQ lo <= toQ x <= toQ hi)%Q.
Proof.
  unfold isFinite, toQ. intros Flo Fhi Hlo Hhi.
  pose proof (leb_true_not_nan _ _ Hlo) as [Nlo Nx].
  pose proof (leb_true_not_nan _ _ Hhi) as [_ Nhi].
  rewrite leb_order in Hlo, Hhi by done. apply Z.leb_le in Hlo, Hhi.
  unfold order in *.
  pose proof (Prim2SF_valid lo) as Vlo. pose proof (Prim2SF_valid hi) as Vhi.
  pose proof (Prim2SF_valid x) as Vx.
  apply is_nan_false in Nx.
  rewrite !value_scaled by done.
  pose proof (pow2_pos (-1074)) as HP.
  assert (Hlo' : rank (Prim2SF lo) = scaled (Prim2SF lo))
    by (by destruct (Prim2SF lo)).
  assert (Hhi' : rank (Prim2SF hi) = scaled (Prim2SF hi))
    by (by destruct (Prim2SF hi)).
  assert (Bhi : scaled (Prim2SF hi) < 2 ^ 2100).
  { destruct (Prim2SF hi) as [s | s | | s m e]; cbn [scaled]; try done.
    pose proof (scaled_finite_bounds _ _ _ Vhi). destruct s; cbn [cond_Zopp]; lia. }
  assert (Blo : - 2 ^ 2100 < scaled (Prim2SF lo)).
  { destruct (Prim2SF lo) as [s | s | | s m e]; cbn [scaled]; try done.
    pose proof (scaled_finite_bounds _ _ _ Vlo). destruct s; cbn [cond_Zopp]; lia. }
  rewrite Hlo' in Hlo. rewrite Hhi' in Hhi.
  assert (Fx : finite (Prim2SF x) = true /\
               rank (Prim2SF x) = scaled (Prim2SF x)).
  { destruct (Prim2SF x) as [s | s | | s m e]; try done.
    exfalso. cbn [rank] in *. destruct s; cbn [cond_Zopp] in *; lia. }
  destruct Fx as [Fx Ex]. rewrite Ex in Hlo, Hhi.
  split; [exact Fx|].
  split; (apply Qmult_le_compat_r; [by rewrite <- Zle_Qle | lra]).
Qed.

Lemma mul_value x y :
  isFinite x = true -> isFinite y = true ->
  (0 <= toQ x)%Q -> (0 <= toQ y)%Q ->
  let z := (toQ x * toQ y)%Q in
  (z <= pow2 11)%Q ->
  isFinite (x * y) = true /\
  (0 <= toQ (x * y))%Q /\
  (z - (unit_roundoff * z + half_least) <= toQ (x * y))%Q /\
  (toQ (x * y) <= z + (unit_roundoff * z + half_least))%Q.
Proof. unfold isFinite, toQ. rewrite mul_spec. apply SFmul_value. Qed.

Lemma add_value x y :
  isFinite x = true -> isFinite y = true ->
  (0 <= toQ x)%Q -> (0 <= toQ y)%Q ->
  let z := (toQ x + toQ y)%Q in
  (z <= pow2 11)%Q ->
  isFinite (x + y) = true /\
  (0 <= toQ (x + y))%Q /\
  (z - (unit_roundoff * z + half_least) <= toQ (x + y))%Q /\
  (toQ (x + y) <= z + (unit_roundoff * z + half_least))%Q.
Proof. unfold isFinite, toQ. rewrite add_spec. apply SFadd_value. Qed.

End Binary64Facts.

(** ** Numbers as text *)

Module NumberFormattingFacts.

Set Warnings "-inexact-float".

(** The texts of some numbers, as JavaScript prints them. *)
Example toString_samples :
  NumberFormatting.toString
    <$> [ 51; 45.5; 0.1; 0.1 + 0.2; 98.999999999999986; -2.5; 1e21;
          1.2e-7; 0.000001; 590295810358705651712; 5e-324; 0 / 0; -0 ]%float
  = [ "51"; "45.5"; "0.1"; "0.30000000000000004"; "98.99999999999999";
      "-2.5"; "1e+21"; "1.2e-7"; "0.000001"; "590295810358705700000";
      "5e-324"; "NaN"; "0" ].
Proof. vm_compute. reflexivity. Qed.

Example toFixed0_samples :
  NumberFormatting.toFixed0
    <$> [ 85; 77.5; 45.5; 0.5; 2.5; -2.5; -0.4; 0.49999999999999994;
          1e21 ]%float
  = [ "85"; "78"; "46"; "1"; "3"; "-3"; "-0"; "0"; "1e+21" ].
Proof. vm_compute. reflexivity. Qed.

Set Warnings "inexact-float".

End NumberFormattingFacts.

(** ** Comparisons and arrays *)

Module JSFacts.

Lemma ltb_lt (x y : Q) : JS.ltb x y = true <-> (x < y)%Q.
Proof.
  unfold JS.ltb. rewrite negb_true_iff, <- not_true_iff_false, Qle_bool_iff.
  split; [apply Qnot_le_lt | apply Qlt_not_le].
Qed.

Lemma ltb_ge (x y : Q) : JS.ltb x y = false <-> (y <= x)%Q.
Proof.
  unfold JS.ltb. rewrite negb_false_iff. apply Qle_bool_iff.
Qed.

Lemma gtb_gt (x y : Q) : JS.gtb x y = true <-> (y < x)%Q.
Proof. apply ltb_lt. Qed.

Lemma gtb_le (x y : Q) : JS.gtb x y = false <-> (x <= y)%Q.
Proof. apply ltb_ge. Qed.

(** The two outcomes of a comparison, with the order it decides. *)
Lemma ltb_cases (x y : Q) :
  (JS.ltb x y = true /\ (x < y)%Q) \/ (JS.ltb x y = false /\ (y <= x)%Q).
Proof.
  destruct (JS.ltb x y) eqn:E; [left | right]; split; trivial.
  - by apply ltb_lt.
  - by apply ltb_ge.
Qed.

Lemma gtb_cases (x y : Q) :
  (JS.gtb x y = true /\ (y < x)%Q) \/ (JS.gtb x y = false /\ (x <= y)%Q).
Proof. apply ltb_cases. Qed.

Lemma length_push {A} (a : list A) (x : A) :
  length (JS.push a x) = S (length a).
Proof. unfold JS.push. rewrite length_app. simpl. lia. Qed.

Lemma clamp_index_le (len : nat) (i : Z) : (JS.clamp_index len i <= len)%nat.
Proof. unfold JS.clamp_index. destruct (Z.ltb_spec i 0); lia. Qed.

Lemma clamp_index_nonneg (len : nat) (i : Z) :
  0 <= i -> JS.clamp_index len i = Nat.min (Z.to_nat i) len.
Proof. intros Hi. unfold JS.clamp_index. destruct (Z.ltb_spec i 0); lia. Qed.

(** [a.slice(0, n)] is a prefix of [a]. *)
Lemma slice0_take {A} (a : list A) (n : Z) :
  JS.slice a 0 n = take (JS.clamp_index (length a) n) a.
Proof.
  unfold JS.slice. rewrite (clamp_index_nonneg _ 0) by lia.
  simpl. by rewrite Nat.sub_0_r.
Qed.

Lemma slice0_length {A} (a : list A) (n : Z) :
  0 <= n -> Z.of_nat (length (JS.slice a 0 n)) <= n.
Proof.
  intros Hn. rewrite slice0_take, length_take, clamp_index_nonneg by done. lia.
Qed.

End JSFacts.

(** ** Cognitive analytics *)

Module CognitiveAnalyticsFacts.

Import Types CognitiveAnalytics.

Lemma flag_score issue recommendation penalty l :
  healthScore (flag issue recommendation penalty l) = healthScore l - penalty.
Proof. reflexivity. Qed.

(** Orders between a metric and the literals of the source, decided on
    numerators and denominators. *)
Ltac qlia := unfold Qlt, Qle in *; simpl in *; lia.

Ltac penalty p :=
  exists p; split;
  [ repeat split; intros; try reflexivity; qlia
  | try rewrite flag_score; try reflexivity; lia ].

Lemma checkReasoningAccuracy_score m l :
  exists p, accuracy_penalty (reasoningAccuracy m) p /\
            healthScore (checkReasoningAccuracy m l) = healthScore l - p.
Proof.
  unfold checkReasoningAccuracy, accuracy_penalty.
  destruct (JSFacts.ltb_cases (reasoningAccuracy m) 0.7)
    as [[-> H1] | [-> H1]]; [penalty 30|].
  destruct (JSFacts.ltb_cases (reasoningAccuracy m) 0.8)
    as [[-> H2] | [-> H2]]; [penalty 15 | penalty 0].
Qed.

Lemma checkReasoningLatency_score m l :
  exists p, latency_penalty (reasoningLatency m) p /\
            healthScore (checkReasoningLatency m l) = healthScore l - p.
Proof.
  unfold checkReasoningLatency, latency_penalty.
  destruct (JSFacts.gtb_cases (reasoningLatency m) 500)
    as [[-> H1] | [-> H1]]; [penalty 20|].
  destruct (JSFacts.gtb_cases (reasoningLatency m) 200)
    as [[-> H2] | [-> H2]]; [penalty 10 | penalty 0].
Qed.

Lemma checkLearningConvergence_score m l :
  exists p, convergence_penalty (learningConvergence m) p /\
            healthScore (checkLearningConvergence m l) = healthScore l - p.
Proof.
  unfold checkLearningConvergence, convergence_penalty.
  destruct (JSFacts.ltb_cases (learningConvergence m) 0.6)
    as [[-> H1] | [-> H1]]; [penalty 15 | penalty 0].
Qed.

Lemma checkPredictionAccuracy_score m l :
  exists p, prediction_penalty (predictionAccuracy m) p /\
            healthScore (checkPredictionAccuracy m l) = healthScore l - p.
Proof.
  unfold checkPredictionAccuracy, prediction_penalty.
  destruct (JSFacts.ltb_cases (predictionAccuracy m) 0.7)
    as [[-> H1] | [-> H1]]; [penalty 15 | penalty 0].
Qed.

Lemma statusOf_classified score : classified score (statusOf score).
Proof.
  unfold classified, statusOf.
  destruct (Z.leb_spec 80 score), (Z.leb_spec 50 score);
    repeat split; intros; trivial; lia.
Qed.

Lemma getCognitiveSystemHealth_status m h :
  status (fst (getCognitiveSystemHealth m h))
  = statusOf (healthScore (healthLocals m)).
Proof. reflexivity. Qed.

(** C1.  [getCognitiveSystemHealth] starts from 100 and subtracts one
    penalty per metric, each penalty fixed by the interval the metric lies
    in (accuracy below 0.7: 30, in [0.7, 0.8): 15; latency above 500: 20,
    in (200, 500]: 10; convergence below 0.6: 15; prediction accuracy
    below 0.7: 15; nothing otherwise), the penalties adding up; the status
    is healthy from 80 up, degraded from 50 to below 80, critical below
    50.  For accuracy 0.65, latency 100, convergence 0.9 and prediction
    accuracy 0.9 the score is 70 and the status degraded. *)
Theorem health_score_penalties_and_status :
  (forall (m : CognitivePerformanceMetrics)
          (h : list CognitivePerformanceMetrics),
     exists pa pl pc pp : Z,
       accuracy_penalty (reasoningAccuracy m) pa /\
       latency_penalty (reasoningLatency m) pl /\
       convergence_penalty (learningConvergence m) pc /\
       prediction_penalty (predictionAccuracy m) pp /\
       healthScore (healthLocals m) = 100 - pa - pl - pc - pp /\
       classified (healthScore (healthLocals m))
                  (status (fst (getCognitiveSystemHealth m h)))) /\
  (forall (ts kg ap : Z) (h : list CognitivePerformanceMetrics),
     healthScore (healthLocals (example_metrics ts kg ap)) = 70 /\
     status (fst (getCognitiveSystemHealth (example_metrics ts kg ap) h))
     = Status.degraded).
Proof.
  split.
  - intros m h. unfold healthLocals.
    set (l0 := {| healthScore := 100; l_issues := []; l_recommendations := [] |}).
    destruct (checkReasoningAccuracy_score m l0) as (pa & Ha & Ea).
    destruct (checkReasoningLatency_score m (checkReasoningAccuracy m l0))
      as (pl & Hl & El).
    destruct (checkLearningConvergence_score m
                (checkReasoningLatency m (checkReasoningAccuracy m l0)))
      as (pc & Hc & Ec).
    destruct (checkPredictionAccuracy_score m
                (checkLearningConvergence m
                  (checkReasoningLatency m (checkReasoningAccuracy m l0))))
      as (pp & Hp & Ep).
    exists pa, pl, pc, pp. repeat (split; [assumption|]). split.
    + rewrite Ep, Ec, El, Ea. subst l0. simpl. lia.
    + rewrite getCognitiveSystemHealth_status. apply statusOf_classified.
  - intros ts kg ap h. split; reflexivity.
Qed.

(** A single call appends the snapshot and, on a full history, drops the
    oldest entry. *)
Lemma getCognitivePerformanceMetrics_step m h :
  getCognitivePerformanceMetrics m h
  = (m, if (MAX_HISTORY_SIZE <=? length h)%nat
        then tail h ++ [m] else h ++ [m]).
Proof.
  unfold getCognitivePerformanceMetrics. f_equal.
  rewrite JSFacts.length_push. unfold JS.push, JS.shift, MAX_HISTORY_SIZE.
  destruct (Nat.ltb_spec 1000 (S (length h))),
           (Nat.leb_spec 1000 (length h)); try lia; trivial.
  destruct h; simpl in *; [lia | reflexivity].
Qed.

Lemma historyAfter_snoc snapshots m :
  historyAfter (snapshots ++ [m])
  = snd (getCognitivePerformanceMetrics m (historyAfter snapshots)).
Proof. unfold historyAfter. by rewrite fold_left_app. Qed.

Lemma tail_drop {A} (l : list A) (k : nat) : tail (drop k l) = drop (S k) l.
Proof.
  revert k. induction l as [| x l IHl]; intros [| k]; simpl; trivial.
Qed.

Lemma historyAfter_suffix snapshots :
  historyAfter snapshots
  = drop (length snapshots - MAX_HISTORY_SIZE) snapshots.
Proof.
  induction snapshots as [| m snapshots IH] using rev_ind; [reflexivity|].
  rewrite historyAfter_snoc, getCognitivePerformanceMetrics_step.
  cbn [snd]. rewrite IH, length_drop, length_app, tail_drop.
  cbn [length]. unfold MAX_HISTORY_SIZE.
  destruct (Nat.leb_spec 1000 (length snapshots - (length snapshots - 1000))).
  - replace (length snapshots + 1 - 1000)%nat
      with (S (length snapshots - 1000)) by lia.
    by rewrite drop_app_le by lia.
  - replace (length snapshots + 1 - 1000)%nat with 0%nat by lia.
    replace (length snapshots - 1000)%nat with 0%nat by lia.
    by rewrite !drop_0.
Qed.

(** C8.  After any run of [getCognitivePerformanceMetrics] calls on a
    fresh service the history holds at most [MAX_HISTORY_SIZE] = 1000
    snapshots, namely the most recent ones in call order; a call on a
    full history evicts exactly the oldest entry, keeps the others in
    order and appends the new snapshot. *)
Theorem performance_history_bounded :
  MAX_HISTORY_SIZE = 1000%nat /\
  forall snapshots : list CognitivePerformanceMetrics,
    (length (historyAfter snapshots) <= MAX_HISTORY_SIZE)%nat /\
    historyAfter snapshots
    = drop (length snapshots - MAX_HISTORY_SIZE) snapshots /\
    forall m : CognitivePerformanceMetrics,
      historyAfter (snapshots ++ [m])
      = if (MAX_HISTORY_SIZE <=? length (historyAfter snapshots))%nat
        then tail (historyAfter snapshots) ++ [m]
        else historyAfter snapshots ++ [m].
Proof.
  split; [reflexivity|]. intros snapshots. split; [|split].
  - rewrite historyAfter_suffix, length_drop. lia.
  - apply historyAfter_suffix.
  - intros m.
    by rewrite historyAfter_snoc, getCognitivePerformanceMetrics_step.
Qed.

End CognitiveAnalyticsFacts.

(** ** Code analytics *)

Module CodeAnalyticsFacts.

Import Types CodeAnalytics.

Ltac qlia := unfold Qlt, Qle in *; simpl in *; lia.

(** *** Architecture quality *)

Lemma rate_weakPoints weak strong weakPoint strength l x :
  In x (fst (rate weak strong weakPoint strength l))
  <-> In x (fst l) \/ (weak = true /\ x = weakPoint).
Proof.
  unfold rate, JS.push. destruct weak, strong; simpl;
    rewrite ?in_app_iff; simpl; intuition congruence.
Qed.

Lemma rate_strengths weak strong weakPoint strength l x :
  In x (snd (rate weak strong weakPoint strength l))
  <-> In x (snd l) \/ (weak = false /\ strong = true /\ x = strength).
Proof.
  unfold rate, JS.push. destruct weak, strong; simpl;
    rewrite ?in_app_iff; simpl; intuition congruence.
Qed.

Lemma weakPoints_spec m c k mt t x :
  In x (weakPoints (assessArchitectureQualityOf m c k mt t)) <->
  (JS.ltb m 60 = true /\ x = low_modularity) \/
  (JS.ltb c 60 = true /\ x = low_cohesion) \/
  (JS.gtb k 40 = true /\ x = high_coupling) \/
  (JS.ltb mt 60 = true /\ x = low_maintainability) \/
  (JS.ltb t 60 = true /\ x = low_testability).
Proof.
  unfold assessArchitectureQualityOf. cbn [weakPoints].
  rewrite !rate_weakPoints. simpl. tauto.
Qed.

Lemma strengths_spec m c k mt t x :
  In x (strengths (assessArchitectureQualityOf m c k mt t)) <->
  (JS.ltb m 60 = false /\ JS.gtb m 80 = true /\ x = excellent_modularity) \/
  (JS.ltb c 60 = false /\ JS.gtb c 80 = true /\ x = high_cohesion) \/
  (JS.gtb k 40 = false /\ JS.ltb k 20 = true /\ x = low_coupling) \/
  (JS.ltb mt 60 = false /\ JS.gtb mt 80 = true /\ x = high_maintainability) \/
  (JS.ltb t 60 = false /\ JS.gtb t 80 = true /\ x = high_testability).
Proof.
  unfold assessArchitectureQualityOf. cbn [strengths].
  rewrite !rate_strengths. simpl. tauto.
Qed.

(** A strength above 80 is never shadowed by the weak-point test. *)
Lemma above_80_not_below_60 x : (80 < x)%Q -> JS.ltb x 60 = false.
Proof. intros Hx. apply JSFacts.ltb_ge. qlia. Qed.

Lemma below_20_not_above_40 x : (x < 20)%Q -> JS.gtb x 40 = false.
Proof. intros Hx. apply JSFacts.gtb_le. qlia. Qed.

(** Closes the branches of [weakPoints_spec] and [strengths_spec] that
    name another sub-score's entry. *)
Ltac other_entries :=
  repeat match goal with
         | H : _ \/ _ |- _ => destruct H
         | H : _ /\ _ |- _ => destruct H
         end;
  try done.

Lemma modularity_rule m c k mt t :
  dead_zone_rule m low_modularity excellent_modularity
    (assessArchitectureQualityOf m c k mt t).
Proof.
  split.
  - rewrite weakPoints_spec, <- JSFacts.ltb_lt.
    split; [intros Hin; other_entries | tauto].
  - rewrite strengths_spec, <- JSFacts.gtb_gt.
    split; [intros Hin; other_entries |].
    intros Hs. left. repeat split; trivial.
    by apply above_80_not_below_60, JSFacts.gtb_gt.
Qed.

Lemma cohesion_rule m c k mt t :
  dead_zone_rule c low_cohesion high_cohesion
    (assessArchitectureQualityOf m c k mt t).
Proof.
  split.
  - rewrite weakPoints_spec, <- JSFacts.ltb_lt.
    split; [intros Hin; other_entries | tauto].
  - rewrite strengths_spec, <- JSFacts.gtb_gt.
    split; [intros Hin; other_entries |].
    intros Hs. right. left. repeat split; trivial.
    by apply above_80_not_below_60, JSFacts.gtb_gt.
Qed.

Lemma coupling_rule_holds m c k mt t :
  coupling_rule k (assessArchitectureQualityOf m c k mt t).
Proof.
  split.
  - rewrite weakPoints_spec, <- JSFacts.gtb_gt.
    split; [intros Hin; other_entries | tauto].
  - rewrite strengths_spec, <- JSFacts.ltb_lt.
    split; [intros Hin; other_entries |].
    intros Hs. right. right. left. repeat split; trivial.
    by apply below_20_not_above_40, JSFacts.ltb_lt.
Qed.

Lemma maintainability_rule m c k mt t :
  dead_zone_rule mt low_maintainability high_maintainability
    (assessArchitectureQualityOf m c k mt t).
Proof.
  split.
  - rewrite weakPoints_spec, <- JSFacts.ltb_lt.
    split; [intros Hin; other_entries | tauto].
  - rewrite strengths_spec, <- JSFacts.gtb_gt.
    split; [intros Hin; other_entries |].
    intros Hs. right. right. right. left. repeat split; trivial.
    by apply above_80_not_below_60, JSFacts.gtb_gt.
Qed.

Lemma testability_rule m c k mt t :
  dead_zone_rule t low_testability high_testability
    (assessArchitectureQualityOf m c k mt t).
Proof.
  split.
  - rewrite weakPoints_spec, <- JSFacts.ltb_lt.
    split; [intros Hin; other_entries | tauto].
  - rewrite strengths_spec, <- JSFacts.gtb_gt.
    split; [intros Hin; other_entries |].
    intros Hs. right. right. right. right. repeat split; trivial.
    by apply above_80_not_below_60, JSFacts.gtb_gt.
Qed.

(** The source's rule for coupling is the dead-zone rule on the inverted
    score [100 - coupling]. *)
Lemma coupling_rule_inverted k r :
  coupling_rule k r <-> dead_zone_rule (100 - k) high_coupling low_coupling r.
Proof.
  unfold coupling_rule, dead_zone_rule.
  assert (H1 : (40 < k)%Q <-> (100 - k < 60)%Q) by (split; intros; lra).
  assert (H2 : (k < 20)%Q <-> (80 < 100 - k)%Q) by (split; intros; lra).
  by rewrite H1, H2.
Qed.

(** C3, as the code has it.  Modularity, cohesion, maintainability and
    testability follow the dead-zone rule: an entry among the weak points
    exactly when the sub-score is below 60, an entry among the strengths
    exactly when it is above 80, no entry on [60, 80].  Coupling is judged
    the other way round: a weak point exactly above 40, a strength exactly
    below 20, no entry on [20, 40].  Modularity 55 gives a modularity weak
    point; modularity 60, 70 and 80 give no modularity entry. *)
Theorem architecture_entries_by_threshold :
  (forall m c k mt t : Q,
     let r := assessArchitectureQualityOf m c k mt t in
     dead_zone_rule m low_modularity excellent_modularity r /\
     dead_zone_rule c low_cohesion high_cohesion r /\
     coupling_rule k r /\
     dead_zone_rule mt low_maintainability high_maintainability r /\
     dead_zone_rule t low_testability high_testability r) /\
  (forall c k mt t : Q,
     In low_modularity (weakPoints (assessArchitectureQualityOf 55 c k mt t))) /\
  (forall m c k mt t : Q,
     m = 60%Q \/ m = 70%Q \/ m = 80%Q ->
     ~ In low_modularity (weakPoints (assessArchitectureQualityOf m c k mt t)) /\
     ~ In excellent_modularity
         (strengths (assessArchitectureQualityOf m c k mt t))).
Proof.
  split; [|split].
  - intros m c k mt t r. subst r.
    auto using modularity_rule, cohesion_rule, coupling_rule_holds,
      maintainability_rule, testability_rule.
  - intros c k mt t. by apply (modularity_rule 55 c k mt t).
  - intros m c k mt t Hm.
    destruct (modularity_rule m c k mt t) as [Hw Hs]. rewrite Hw, Hs.
    destruct Hm as [-> | [-> | ->]]; split; intros H; qlia.
Qed.

Lemma architecture_entries_witness :
  ~ In low_modularity
      (weakPoints (assessArchitectureQualityOf 60 80 35 78 72)) /\
  ~ In excellent_modularity
      (strengths (assessArchitectureQualityOf 60 80 35 78 72)).
Proof.
  apply (proj2 (proj2 architecture_entries_by_threshold) 60%Q 80%Q 35%Q 78%Q 72%Q).
  left. reflexivity.
Defined.

(** C3 as stated fails for coupling: a coupling of 30 is below 60 and
    yields no coupling weak point. *)
Lemma coupling_not_dead_zone :
  ~ dead_zone_rule 30 high_coupling low_coupling
      (assessArchitectureQualityOf 70 70 30 70 70).
Proof.
  intros [Hw _]. assert (H : (30 < 60)%Q) by reflexivity.
  apply Hw in H. vm_compute in H. exact H.
Qed.

(** *** Code quality score *)

Set Warnings "-inexact-float".

Lemma weights_sum : (fold_right Qplus 0 weights == 1)%Q.
Proof. reflexivity. Qed.

Lemma unit_roundoff_eq : (Binary64.unit_roundoff == 1 # 9007199254740992)%Q.
Proof. reflexivity. Qed.

Lemma half_least_small :
  (0 < Binary64.half_least <= 1 # 1000000000000000000000000000000)%Q.
Proof. split; [apply Binary64Facts.pow2_pos | vm_compute; discriminate]. Qed.

Lemma pow2_11 : (Binary64.pow2 11 == 2048)%Q.
Proof. reflexivity. Qed.

(** A sub-score in [[0, 100]] is a finite number, and the rational it
    denotes lies in [[0, 100]]. *)
Lemma subscore_value x :
  subscore x ->
  Binary64.isFinite x = true /\ (0 <= Binary64.toQ x <= 100)%Q.
Proof.
  intros [Hlo Hhi].
  destruct (Binary64Facts.between_finite 0 x 100 eq_refl eq_refl Hlo Hhi)
    as [Fx [H0 H100]].
  assert (E0 : (Binary64.toQ 0 == 0)%Q) by reflexivity.
  assert (E100 : (Binary64.toQ 100 == 100)%Q) by reflexivity.
  rewrite E0 in H0. rewrite E100 in H100. done.
Qed.

(** The three weights as binary64 numbers: 0.25 is exact, 0.2 and 0.15
    are not. *)
Lemma weight_values :
  (Binary64.toQ 0.25 == 1 # 4)%Q /\
  (Binary64.toQ 0.2 == 3602879701896397 # 18014398509481984)%Q /\
  (Binary64.toQ 0.15 == 5404319552844595 # 36028797018963968)%Q.
Proof. split; [|split]; reflexivity. Qed.

Lemma getCodeQualityScoreOf_tolerance
    (complexity duplication coverage documentation styleCompliance : float) :
  subscore complexity -> subscore duplication -> subscore coverage ->
  subscore documentation -> subscore styleCompliance ->
  let score :=
    getCodeQualityScoreOf complexity duplication coverage documentation
      styleCompliance in
  Binary64.isFinite score = true /\
  (Qabs (Binary64.toQ score
         - weighted_sum weights
             [Binary64.toQ complexity; Binary64.toQ duplication;
              Binary64.toQ coverage; Binary64.toQ documentation;
              Binary64.toQ styleCompliance])
   <= tolerance)%Q.
Proof.
  intros Hc Hd Hv Ho Hs score. subst score. unfold getCodeQualityScoreOf.
  apply subscore_value in Hc as [Fc Bc], Hd as [Fd Bd], Hv as [Fv Bv],
    Ho as [Fo Bo], Hs as [Fs Bs].
  pose proof half_least_small as Hh.
  destruct weight_values as (W25 & W20 & W15).
  (* the five products *)
  destruct (Binary64Facts.mul_value complexity 0.25) as (F1 & N1 & L1 & U1);
    [done | done | lra | rewrite W25; lra | rewrite W25, pow2_11; lra |].
  destruct (Binary64Facts.mul_value duplication 0.2) as (F2 & N2 & L2 & U2);
    [done | done | lra | rewrite W20; lra | rewrite W20, pow2_11; lra |].
  destruct (Binary64Facts.mul_value coverage 0.25) as (F3 & N3 & L3 & U3);
    [done | done | lra | rewrite W25; lra | rewrite W25, pow2_11; lra |].
  destruct (Binary64Facts.mul_value documentation 0.15)
    as (F4 & N4 & L4 & U4);
    [done | done | lra | rewrite W15; lra | rewrite W15, pow2_11; lra |].
  destruct (Binary64Facts.mul_value styleCompliance 0.15)
    as (F5 & N5 & L5 & U5);
    [done | done | lra | rewrite W15; lra | rewrite W15, pow2_11; lra |].
  rewrite unit_roundoff_eq in *. rewrite W25, W20, W15 in *.
  set (p1 := (complexity * 0.25)%float) in *.
  set (p2 := (duplication * 0.2)%float) in *.
  set (p3 := (coverage * 0.25)%float) in *.
  set (p4 := (documentation * 0.15)%float) in *.
  set (p5 := (styleCompliance * 0.15)%float) in *.
  (* the four sums, from left to right *)
  destruct (Binary64Facts.add_value p1 p2) as (G1 & M1 & A1 & B1);
    [done | done | done | done | rewrite pow2_11; lra |].
  rewrite unit_roundoff_eq in *.
  set (s1 := (p1 + p2)%float) in *.
  destruct (Binary64Facts.add_value s1 p3) as (G2 & M2 & A2 & B2);
    [done | done | done | done | rewrite pow2_11; lra |].
  rewrite unit_roundoff_eq in *.
  set (s2 := (s1 + p3)%float) in *.
  destruct (Binary64Facts.add_value s2 p4) as (G3 & M3 & A3 & B3);
    [done | done | done | done | rewrite pow2_11; lra |].
  rewrite unit_roundoff_eq in *.
  set (s3 := (s2 + p4)%float) in *.
  destruct (Binary64Facts.add_value s3 p5) as (G4 & M4 & A4 & B4);
    [done | done | done | done | rewrite pow2_11; lra |].
  rewrite unit_roundoff_eq in *.
  split; [exact G4|].
  apply Qabs_diff_Qle_condition.
  unfold weighted_sum, weights, tolerance. cbn [zip_with fold_right].
  split; lra.
Qed.

(** C6.  The weights 0.25, 0.20, 0.25, 0.15, 0.15 add up to 1.  For
    sub-scores in [[0, 100]], [getCodeQualityScore] returns a finite
    binary64 number whose distance from the exact weighted sum
    0.25 complexity + 0.20 duplication + 0.25 coverage
    + 0.15 documentation + 0.15 style is at most [tolerance], that is
    [10^-13]: the drift the nine roundings of the expression and the two
    inexact literals 0.2 and 0.15 can cause, and no more.  On the
    sub-scores the helpers return the result is 74.75, with no error. *)
Theorem quality_score_within_tolerance :
  (fold_right Qplus 0 weights == 1)%Q /\
  (forall complexity duplication coverage documentation styleCompliance,
     subscore complexity -> subscore duplication -> subscore coverage ->
     subscore documentation -> subscore styleCompliance ->
     let score :=
       getCodeQualityScoreOf complexity duplication coverage documentation
         styleCompliance in
     Binary64.isFinite score = true /\
     (Qabs (Binary64.toQ score
            - weighted_sum weights
                [Binary64.toQ complexity; Binary64.toQ duplication;
                 Binary64.toQ coverage; Binary64.toQ documentation;
                 Binary64.toQ styleCompliance])
      <= tolerance)%Q) /\
  (forall path : string,
     getCodeQualityScore path
     = getCodeQualityScoreOf (getComplexityScore path)
         (getDuplicationScore path) (getCoverageScore path)
         (getDocumentationScore path) (getStyleComplianceScore path) /\
     getCodeQualityScore path = 74.75%float).
Proof.
  split; [exact weights_sum|]. split.
  - exact getCodeQualityScoreOf_tolerance.
  - intros path. split; reflexivity.
Qed.

Lemma quality_score_witness :
  let score := getCodeQualityScoreOf 99 99 99 99 99 in
  Binary64.isFinite score = true /\
  (Qabs (Binary64.toQ score
         - weighted_sum weights
             [Binary64.toQ 99; Binary64.toQ 99; Binary64.toQ 99;
              Binary64.toQ 99; Binary64.toQ 99])
   <= tolerance)%Q.
Proof.
  apply (proj1 (proj2 quality_score_within_tolerance) 99 99 99 99 99)%float;
    split; reflexivity.
Defined.

(** The result need not be the weighted sum itself: with every sub-score
    at 99 the sum is 99 and the result is the binary64 number next below
    it, [2^-46] away. *)
Example quality_score_rounds :
  getCodeQualityScoreOf 99 99 99 99 99 = 98.999999999999986%float /\
  (getCodeQualityScoreOf 99 99 99 99 99 <? 99)%float = true /\
  (Binary64.toQ 99 - Binary64.toQ (getCodeQualityScoreOf 99 99 99 99 99)
   == 1 # 70368744177664)%Q.
Proof. split; [|split]; reflexivity. Qed.

(** The five weights add up to 1 in binary64 as well. *)
Example weights_sum_binary64 :
  (0.25 + 0.2 + 0.25 + 0.15 + 0.15)%float = 1%float.
Proof. reflexivity. Qed.

Set Warnings "inexact-float".

(** *** Code evolution history *)

Lemma filter_all {A} (p : A -> bool) (l : list A) :
  Forall (fun x => p x = true) l -> List.filter p l = l.
Proof.
  induction 1 as [| x l Hx _ IH]; simpl; [reflexivity|]. by rewrite Hx, IH.
Qed.

(** On a chronological history with a fresh entry, the entries from the
    first fresh one on are the fresh entries. *)
Lemma findIndex_from_chronological cutoffTime h i :
  chronological h ->
  Exists (fun m => fresh cutoffTime m = true) h ->
  i <= JS.findIndex_from (fresh cutoffTime) h i /\
  drop (Z.to_nat (JS.findIndex_from (fresh cutoffTime) h i - i)) h
  = List.filter (fresh cutoffTime) h.
Proof.
  intros Hs. revert i. induction Hs as [| x h Hs IH Hx]; intros i He.
  - inversion He.
  - simpl. destruct (fresh cutoffTime x) eqn:Ex.
    + split; [lia|]. rewrite Z.sub_diag. simpl. f_equal. symmetry.
      apply filter_all. eapply Forall_impl; [exact Hx|].
      intros y Hy. unfold fresh, earlier in *. lia.
    + assert (He' : Exists (fun m => fresh cutoffTime m = true) h).
      { inversion He; subst; [congruence | assumption]. }
      destruct (IH (i + 1) He') as [Hle Hd]. split; [lia|].
      replace (Z.to_nat (JS.findIndex_from (fresh cutoffTime) h (i + 1) - i))
        with (S (Z.to_nat
                   (JS.findIndex_from (fresh cutoffTime) h (i + 1) - (i + 1))))
        by lia.
      exact Hd.
Qed.

Lemma pruneOldMetrics_filter clock metrics ticks :
  chronological metrics ->
  Exists (fun m => fresh (clock ticks - retention) m = true) metrics ->
  pruneOldMetrics clock metrics ticks
  = (List.filter (fresh (clock ticks - retention)) metrics, S ticks).
Proof.
  intros Hs He. unfold pruneOldMetrics. f_equal.
  destruct (findIndex_from_chronological _ _ 0 Hs He) as [Hle Hd].
  rewrite Z.sub_0_r in Hd.
  fold (JS.findIndex (fresh (clock ticks - retention)) metrics) in *.
  change (fun m => clock ticks - HISTORY_RETENTION_DAYS * 24 * 60 * 60 * 1000
                   <=? ce_timestamp m)
    with (fresh (clock ticks - retention)).
  destruct (Z.ltb_spec 0 (JS.findIndex (fresh (clock ticks - retention)) metrics)).
  - exact Hd.
  - replace (JS.findIndex (fresh (clock ticks - retention)) metrics)
      with 0 in Hd by lia.
    exact Hd.
Qed.

Lemma chronological_snoc h m :
  chronological h ->
  Forall (fun x => ce_timestamp x <= ce_timestamp m) h ->
  chronological (h ++ [m]).
Proof.
  intros Hs Hb. induction Hs as [| x h Hs IH Hx]; simpl.
  - repeat constructor.
  - inversion Hb; subst. constructor; [by apply IH|].
    apply Forall_app. split; [assumption | by constructor].
Qed.

Lemma chronological_drop k h :
  chronological h -> chronological (drop k h).
Proof.
  intros Hs. revert k. induction Hs as [| x h Hs IH Hx]; intros [| k]; simpl;
    try constructor; trivial.
Qed.

Lemma timely_prior clock workspaceRoot s :
  timely clock s ->
  chronological (prior workspaceRoot s) /\
  Forall (fun m => ce_timestamp m <= clock (ticks s)) (prior workspaceRoot s).
Proof.
  intros Ht. unfold prior.
  destruct (metricsHistory s !! workspaceRoot) as [h|] eqn:E.
  - by apply (Ht workspaceRoot).
  - split; constructor.
Qed.

(** Within the window, a call keeps exactly the fresh entries of the
    history it finds and of the snapshot it takes. *)
Lemma trackCodeEvolution_filter clock workspaceRoot s :
  timely clock s ->
  clock (S (ticks s)) - clock (ticks s) <= retention ->
  trackCodeEvolution clock workspaceRoot s
  = (List.filter (fresh (clock (S (ticks s)) - retention))
       (prior workspaceRoot s ++ [snapshotAt (clock (ticks s))]),
     {| metricsHistory :=
          <[workspaceRoot :=
              List.filter (fresh (clock (S (ticks s)) - retention))
                (prior workspaceRoot s ++ [snapshotAt (clock (ticks s))])]>
            (metricsHistory s);
        ticks := S (S (ticks s)) |}).
Proof.
  intros Ht Hgap. destruct (timely_prior clock workspaceRoot s Ht) as [Hs Hb].
  unfold trackCodeEvolution. fold (prior workspaceRoot s).
  unfold captureCurrentMetrics. fold (snapshotAt (clock (ticks s))).
  unfold JS.push. rewrite pruneOldMetrics_filter; [reflexivity | |].
  - by apply chronological_snoc.
  - apply Exists_app. right. constructor. unfold fresh. simpl. lia.
Qed.

Lemma trackCodeEvolution_timely clock workspaceRoot s :
  monotone clock ->
  timely clock s ->
  timely clock (snd (trackCodeEvolution clock workspaceRoot s)).
Proof.
  intros Hm Ht. destruct (timely_prior clock workspaceRoot s Ht) as [Hs Hb].
  assert (Hc : chronological
                 (prior workspaceRoot s ++ [snapshotAt (clock (ticks s))])).
  { by apply chronological_snoc. }
  unfold trackCodeEvolution. fold (prior workspaceRoot s).
  unfold captureCurrentMetrics. fold (snapshotAt (clock (ticks s))).
  unfold JS.push, pruneOldMetrics. cbn [snd metricsHistory ticks].
  set (index := JS.findIndex _ _).
  assert (Hup : forall t, t <= clock (ticks s) -> t <= clock (S (S (ticks s)))).
  { intros t Hle. etrans; [exact Hle|]. apply Hm. lia. }
  intros ws h. unfold timely. cbn [metricsHistory ticks].
  destruct (decide (workspaceRoot = ws)) as [<- | Hne].
  - rewrite lookup_insert_eq. intros [= <-].
    assert (Hall : Forall (fun m => ce_timestamp m <= clock (S (S (ticks s))))
                     (prior workspaceRoot s ++ [snapshotAt (clock (ticks s))])).
    { apply Forall_app. split.
      - eapply Forall_impl; [exact Hb|]. intros m. apply Hup.
      - constructor; [|constructor]. simpl. apply Hm. lia. }
    destruct (0 <? index).
    + unfold JS.splice0. split.
      * by apply chronological_drop.
      * by apply Forall_drop.
    + by split.
  - rewrite lookup_insert_ne by done. intros Hl.
    destruct (Ht ws h Hl) as [H1 H2].
    split; [assumption|]. eapply Forall_impl; [exact H2|]. intros m. apply Hup.
Qed.

Lemma reachable_timely clock s :
  monotone clock -> reachable clock s -> timely clock s.
Proof.
  intros Hm. induction 1 as [| workspaceRoot s Hr IH].
  - intros ws h. unfold initial. simpl. by rewrite lookup_empty.
  - by apply trackCodeEvolution_timely.
Qed.

Lemma steady_monotone : monotone steady.
Proof. intros i j Hij. unfold steady. lia. Qed.

(** C4, as the code has it.  On a service whose clock never runs
    backwards, in any state the service reaches, a call of
    [trackCodeEvolution] whose pruning runs no later than 90 days after its
    snapshot returns a history in which no snapshot is older than the
    90-day window that ends at the pruning: the returned history is the
    history found plus the new snapshot, less the entries older than the
    window, and it is the history stored.  Neither condition on the clock
    can be dropped, as the examples that follow show. *)
Theorem retained_history_within_retention
    (clock : Clock) (workspaceRoot : string) (s : State) :
  monotone clock ->
  reachable clock s ->
  clock (S (ticks s)) - clock (ticks s) <= retention ->
  let cutoffTime := clock (S (ticks s)) - retention in
  let history := fst (trackCodeEvolution clock workspaceRoot s) in
  retention = 90 * 24 * 60 * 60 * 1000 /\
  Forall (fun m => cutoffTime <= ce_timestamp m) history /\
  history
  = List.filter (fresh cutoffTime)
      (prior workspaceRoot s ++ [snapshotAt (clock (ticks s))]) /\
  metricsHistory (snd (trackCodeEvolution clock workspaceRoot s))
    !! workspaceRoot = Some history.
Proof.
  intros Hm Hr Hgap cutoffTime history. subst history.
  rewrite trackCodeEvolution_filter by (try apply reachable_timely; done).
  cbn [fst snd metricsHistory]. split; [reflexivity|]. split; [|split].
  - apply List.Forall_forall. intros m Hin.
    apply filter_In in Hin as [_ Hf]. unfold fresh in Hf. lia.
  - reflexivity.
  - by rewrite lookup_insert_eq.
Qed.

Lemma retained_history_witness :
  let cutoffTime := steady (S (ticks tracked_once)) - retention in
  let history := fst (trackCodeEvolution steady "/workspace" tracked_once) in
  retention = 90 * 24 * 60 * 60 * 1000 /\
  Forall (fun m => cutoffTime <= ce_timestamp m) history /\
  history
  = List.filter (fresh cutoffTime)
      (prior "/workspace" tracked_once
       ++ [snapshotAt (steady (ticks tracked_once))]) /\
  metricsHistory (snd (trackCodeEvolution steady "/workspace" tracked_once))
    !! "/workspace" = Some history.
Proof.
  apply (retained_history_within_retention steady "/workspace" tracked_once).
  - exact steady_monotone.
  - apply reachable_track, reachable_initial.
  - vm_compute. discriminate.
Defined.

(** With reads fifty days apart, the second call drops the first
    snapshot, by then 150 days old. *)
Example second_call_prunes :
  fst (trackCodeEvolution steady "/workspace" tracked_once)
  = [snapshotAt (steady 2%nat)].
Proof. reflexivity. Qed.

(** C4 as the specification words it, for every prior history, fails.
    [pruneOldMetrics] deletes the entries in front of the first fresh one
    and nothing else.  The clock steps back by one second after the first
    call, so the history found by the third call is stamped day 100, then
    day 100 less one second; the third call prunes 90 days less half a
    second after the first: the first entry is fresh, nothing is deleted,
    and the second entry, half a second older than the window, is
    returned.  The state is one the service reaches, and the pruning runs
    in the same millisecond as the capture. *)
Lemma stale_snapshot_retained :
  let s := tracked_twice_stepped_back in
  let cutoffTime := stepped_back (S (ticks s)) - retention in
  let history := fst (trackCodeEvolution stepped_back "/workspace" s) in
  reachable stepped_back s /\
  stepped_back (S (ticks s)) - stepped_back (ticks s) <= retention /\
  ce_timestamp <$> history
  = [100 * 86400000; 100 * 86400000 - 1000; 190 * 86400000 - 500] /\
  cutoffTime = 100 * 86400000 - 500 /\
  ~ Forall (fun m => cutoffTime <= ce_timestamp m) history.
Proof.
  split; [apply reachable_track, reachable_track, reachable_initial|].
  split; [vm_compute; discriminate|].
  split; [reflexivity|]. split; [reflexivity|].
  intros Hall. apply Forall_cons_1 in Hall as [_ Hall].
  apply Forall_cons_1 in Hall as [Hstale _].
  vm_compute in Hstale. by apply Hstale.
Qed.

(** The window hypothesis is used as well: under a clock that never runs
    backwards, a call that prunes more than 90 days after its capture finds
    no fresh entry, [findIndex] answers [-1], and the whole history is
    returned, every entry older than the window. *)
Example late_prune_keeps_all :
  let s := tracked_twice_slow_prune in
  let cutoffTime := slow_prune (S (ticks s)) - retention in
  let history := fst (trackCodeEvolution slow_prune "/workspace" s) in
  monotone slow_prune /\
  ce_timestamp <$> history = [0; 10 * 86400000; 50 * 86400000] /\
  cutoffTime = 60 * 86400000.
Proof.
  split; [|split; reflexivity].
  intros i j Hij. unfold slow_prune.
  destruct i as [|[|[|[|[|i]]]]], j as [|[|[|[|[|j]]]]]; lia.
Qed.

(** The clock hypothesis is used: once the clock has been set back, a
    history is no longer chronological, and a snapshot stamped 195 days
    before the pruning stays behind a fresh one. *)
Example clock_set_back_keeps_entry :
  ~ monotone set_back /\
  ce_timestamp <$> fst (trackCodeEvolution set_back "/workspace"
                          tracked_twice_set_back)
  = [150 * 86400000; 5 * 86400000; 200 * 86400000].
Proof.
  split; [|reflexivity].
  intros Hm. specialize (Hm 1%nat 2%nat). vm_compute in Hm.
  apply Hm; [repeat constructor | reflexivity].
Qed.

End CodeAnalyticsFacts.

(** ** Insight generation *)

Module InsightGenerationFacts.

Import Types InsightGeneration.

(** *** Acknowledgement *)

(** C9.  [acknowledgeInsight] is idempotent: a second call with the same
    id leaves the whole state, hence the acknowledged set and its size, as
    the first call left it, and the id is acknowledged afterwards. *)
Theorem acknowledgeInsight_idempotent (insightId : string) (s : State) :
  acknowledgeInsight insightId (acknowledgeInsight insightId s)
  = acknowledgeInsight insightId s /\
  size (acknowledgedInsights
          (acknowledgeInsight insightId (acknowledgeInsight insightId s)))
  = size (acknowledgedInsights (acknowledgeInsight insightId s)) /\
  insightId ∈ acknowledgedInsights (acknowledgeInsight insightId s).
Proof.
  assert (E : acknowledgeInsight insightId (acknowledgeInsight insightId s)
              = acknowledgeInsight insightId s).
  { unfold acknowledgeInsight. simpl. f_equal.
    by rewrite (assoc_L (∪)), (idemp_L (∪)). }
  split; [exact E|]. split; [by rewrite E|].
  unfold acknowledgeInsight. simpl.
  apply elem_of_union_l. by apply elem_of_singleton.
Qed.

(** *** Personalized insights *)

(** C10.  [getPersonalizedInsights] does not depend on its user id: from
    the same state, clock and collaborator answers, two user ids get the
    same insights and leave the same state. *)
Theorem personalized_insights_ignore_user
    `{NumberFormat} (clock : Clock) (answers : Answers) (s : State)
    (u1 u2 : string) :
  getPersonalizedInsights clock answers u1 s
  = getPersonalizedInsights clock answers u2 s.
Proof. reflexivity. Qed.

(** *** Feedback and acceptance rate *)

Lemma tally_comm a x y : tally (tally a x) y = tally (tally a y) x.
Proof.
  destruct a as [t h]. unfold tally. destruct (helpful x), (helpful y);
    f_equal; lia.
Qed.

Lemma fold_tally_comm l a x :
  fold_left tally l (tally a x) = tally (fold_left tally l a) x.
Proof.
  revert a. induction l as [| y l IH]; intros a; simpl; [reflexivity|].
  by rewrite <- IH, tally_comm.
Qed.

Lemma fold_tally_swap l1 l2 a :
  fold_left tally l1 (fold_left tally l2 a)
  = fold_left tally l2 (fold_left tally l1 a).
Proof.
  revert a. induction l1 as [| x l1 IH]; intros a; simpl; [reflexivity|].
  rewrite <- fold_tally_comm. apply IH.
Qed.

Lemma countFeedback_insert (m : gmap string (list Feedback)) i l :
  m !! i = None ->
  countFeedback (<[i := l]> m) = fold_left tally l (countFeedback m).
Proof.
  intros Hi. unfold countFeedback.
  rewrite map_fold_insert_L; [reflexivity | | assumption].
  intros. apply fold_tally_swap.
Qed.

Lemma countFeedback_push (m : gmap string (list Feedback)) i l fb :
  m !! i = Some l ->
  countFeedback (<[i := JS.push l fb]> m) = tally (countFeedback m) fb.
Proof.
  intros Hi.
  rewrite <- (insert_delete_eq m i (JS.push l fb)).
  rewrite countFeedback_insert by apply lookup_delete_eq.
  rewrite <- (insert_id m i l Hi) at 2.
  rewrite <- (insert_delete_eq m i l).
  rewrite countFeedback_insert by apply lookup_delete_eq.
  unfold JS.push. by rewrite fold_left_app.
Qed.

Lemma provideInsightFeedback_count insightId h c s :
  countFeedback (insightFeedback (provideInsightFeedback insightId h c s))
  = tally (countFeedback (insightFeedback s))
          {| helpful := h; comment := c |}.
Proof.
  unfold provideInsightFeedback. cbn [insightFeedback].
  destruct (insightFeedback s !! insightId) as [l|] eqn:E.
  - rewrite (alter_alt_Some _ _ _ l E). by apply countFeedback_push.
  - rewrite alter_insert_eq. by rewrite countFeedback_insert.
Qed.

Lemma afterFeedback_count calls s :
  countFeedback (insightFeedback (afterFeedback calls s))
  = (fst (countFeedback (insightFeedback s)) + Z.of_nat (length calls),
     snd (countFeedback (insightFeedback s)) + helpfulCalls calls).
Proof.
  unfold afterFeedback, helpfulCalls. revert s.
  induction calls as [| c calls IH]; intros s.
  - simpl. rewrite !Z.add_0_r. by destruct (countFeedback _).
  - cbn [fold_left]. rewrite IH, provideInsightFeedback_count.
    destruct (countFeedback (insightFeedback s)) as [t h].
    cbn [tally helpful fst snd List.filter length].
    destruct (fc_helpful c); cbn [length]; f_equal; lia.
Qed.

Lemma helpfulCalls_all calls :
  Forall (fun c => fc_helpful c = true) calls ->
  helpfulCalls calls = Z.of_nat (length calls).
Proof.
  intros Hall. unfold helpfulCalls. f_equal. f_equal.
  induction Hall as [| c calls Hc _ IH]; simpl; [reflexivity|].
  by rewrite Hc, IH.
Qed.

(** C7.  After any run of [provideInsightFeedback] calls on a fresh
    service the counters of [getInsightAcceptanceRate] are the number of
    calls and the number of helpful calls, whatever insights they were
    given for; the rate is 0 when there was no call, the quotient of the
    two counters otherwise, and 1 when every call was helpful. *)
Theorem acceptance_rate_over_all_feedback (calls : list FeedbackCall) :
  let s := afterFeedback calls initial in
  let totalFeedback := Z.of_nat (length calls) in
  countFeedback (insightFeedback s) = (totalFeedback, helpfulCalls calls) /\
  (calls = [] -> getInsightAcceptanceRate s = 0%Q) /\
  (calls <> [] ->
   (getInsightAcceptanceRate s
    == inject_Z (helpfulCalls calls) / inject_Z totalFeedback)%Q) /\
  (calls <> [] -> Forall (fun c => fc_helpful c = true) calls ->
   (getInsightAcceptanceRate s == 1)%Q).
Proof.
  intros s totalFeedback.
  assert (Hc : countFeedback (insightFeedback s)
               = (totalFeedback, helpfulCalls calls)).
  { subst s. rewrite afterFeedback_count. reflexivity. }
  assert (Hrate : calls <> [] ->
            getInsightAcceptanceRate s
            = (inject_Z (helpfulCalls calls) / inject_Z totalFeedback)%Q).
  { intros Hne. unfold getInsightAcceptanceRate. rewrite Hc.
    destruct (Z.ltb_spec 0 totalFeedback); [reflexivity|].
    subst totalFeedback. destruct calls; [done | simpl in *; lia]. }
  split; [exact Hc|]. split; [|split].
  - intros ->. reflexivity.
  - intros Hne. by rewrite Hrate.
  - intros Hne Hall. rewrite Hrate by done. rewrite helpfulCalls_all by done.
    apply Qmult_inv_r. subst totalFeedback.
    destruct calls; [done|]. discriminate.
Qed.

Lemma acceptance_rate_witness :
  (getInsightAcceptanceRate (afterFeedback two_helpful initial) == 1)%Q.
Proof.
  apply (proj2 (proj2 (proj2 (acceptance_rate_over_all_feedback two_helpful)))).
  - discriminate.
  - repeat constructor.
Defined.

(** *** Ranking *)

(** The comparator asks for a swap exactly when [a] scores less than
    [b]. *)
Lemma byScore_gt a b :
  is_nan (score a) = false -> is_nan (score b) = false ->
  JS.gt (byScore a b) 0
  = (Binary64.order (score a) <? Binary64.order (score b)).
Proof.
  intros Ha Hb. unfold JS.gt, byScore.
  by apply Binary64Facts.sub_above_zero.
Qed.

Lemma ranks_before_order a b :
  is_nan (score a) = false -> is_nan (score b) = false ->
  ranks_before a b <-> Binary64.order (score b) <= Binary64.order (score a).
Proof.
  intros Ha Hb. unfold ranks_before.
  rewrite Binary64Facts.leb_order by done. apply Z.leb_le.
Qed.

Lemma has_score_order q a :
  has_score q a = true ->
  is_nan (score a) = false /\
  Binary64.order (score a) = Binary64.order q.
Proof.
  unfold has_score. intros He.
  destruct (Binary64Facts.eqb_true_not_nan _ _ He) as [Ha Hq].
  split; [exact Ha|].
  rewrite Binary64Facts.eqb_order in He by done. by apply Z.eqb_eq.
Qed.

Lemma sort_insert_perm x l : JS.sort_insert byScore x l ≡ₚ x :: l.
Proof.
  induction l as [| y l IH]; simpl; [reflexivity|].
  destruct (JS.gt (byScore x y) 0); [|reflexivity].
  rewrite IH. apply perm_swap.
Qed.

Lemma sort_perm l : JS.sort byScore l ≡ₚ l.
Proof.
  induction l as [| x l IH]; simpl; [reflexivity|].
  by rewrite sort_insert_perm, IH.
Qed.

Lemma scored_sort l : scored l -> scored (JS.sort byScore l).
Proof. unfold scored. by rewrite sort_perm. Qed.

Lemma sort_insert_sorted x l :
  is_nan (score x) = false -> scored l ->
  StronglySorted ranks_before l ->
  StronglySorted ranks_before (JS.sort_insert byScore x l).
Proof.
  intros Hx Hl Hs. induction Hs as [| y l Hs IH Hy]; simpl;
    [repeat constructor|].
  apply Forall_cons in Hl as [Hy' Hl].
  rewrite byScore_gt by done.
  destruct (Z.ltb_spec (Binary64.order (score x)) (Binary64.order (score y)))
    as [E | E].
  - constructor; [by apply IH|].
    rewrite sort_insert_perm. constructor; [|assumption].
    apply ranks_before_order; [done | done | lia].
  - constructor; [by constructor|].
    constructor; [by apply ranks_before_order|].
    rewrite Forall_forall in *. intros z Hz.
    apply ranks_before_order; [done | by apply Hl |].
    pose proof (Hy z Hz) as Hyz.
    apply ranks_before_order in Hyz; [lia | done | by apply Hl].
Qed.

Lemma sort_sorted l :
  scored l -> StronglySorted ranks_before (JS.sort byScore l).
Proof.
  induction l as [| x l IH]; intros Hl; simpl; [constructor|].
  apply Forall_cons in Hl as [Hx Hl].
  apply sort_insert_sorted; [done | by apply scored_sort | by apply IH].
Qed.

Lemma sort_insert_filter q x l :
  is_nan (score x) = false -> scored l ->
  List.filter (has_score q) (JS.sort_insert byScore x l)
  = List.filter (has_score q) (x :: l).
Proof.
  intros Hx Hl. induction l as [| y l IH]; [reflexivity|].
  apply Forall_cons in Hl as [Hy Hl].
  cbn [JS.sort_insert]. rewrite byScore_gt by done.
  destruct (Z.ltb_spec (Binary64.order (score x)) (Binary64.order (score y)))
    as [E | E]; [|reflexivity].
  cbn [List.filter] in *. rewrite IH by done.
  destruct (has_score q x) eqn:Ex, (has_score q y) eqn:Ey; try reflexivity.
  apply has_score_order in Ex as [_ Ex], Ey as [_ Ey]. lia.
Qed.

Lemma sort_stable q l :
  scored l ->
  List.filter (has_score q) (JS.sort byScore l) = List.filter (has_score q) l.
Proof.
  induction l as [| x l IH]; intros Hl; [reflexivity|].
  apply Forall_cons in Hl as [Hx Hl].
  cbn [JS.sort]. rewrite sort_insert_filter by (done || by apply scored_sort).
  cbn [List.filter]. by rewrite IH.
Qed.

Lemma StronglySorted_take {A} (R : A -> A -> Prop) k l :
  StronglySorted R l -> StronglySorted R (take k l).
Proof.
  intros Hs. revert k. induction Hs as [| x l Hs IH Hx]; intros [| k]; simpl;
    try constructor; trivial. by apply Forall_take.
Qed.

Lemma filter_take_prefix {A} (p : A -> bool) k (l : list A) :
  List.filter p (take k l) `prefix_of` List.filter p l.
Proof.
  exists (List.filter p (drop k l)).
  by rewrite <- List.filter_app, take_drop.
Qed.

(** Where a NaN score can come from: the weights and the confidences are
    literals, so a score is NaN only when the impact is. *)
Lemma rated_scored a : rated a -> is_nan (score a) = false.
Proof.
  intros [Hi Hc]. unfold score.
  apply Binary64Facts.mul_regular_r; [|exact Hc].
  apply Binary64Facts.mul_regular_l; [|exact Hi].
  by destruct (priority a).
Qed.

Lemma Math_min_not_nan x y :
  is_nan x = false -> is_nan y = false -> is_nan (JS.Math_min x y) = false.
Proof.
  intros Hx Hy. unfold JS.Math_min. rewrite Hx, Hy. cbn [orb].
  destruct (x <? y)%float; [done|]. destruct (y <? x)%float; [done|].
  by destruct (get_sign x).
Qed.

Section Rated.

Context `{NumberFormat}.
Variable clock : Clock.
Variable answers : Answers.

Ltac solve_rated :=
  cbn [fst]; repeat (constructor; [split; [try reflexivity | reflexivity]|]);
  try constructor.

Lemma generatePerformanceInsights_rated lo :
  Forall rated (fst (generatePerformanceInsights clock answers lo)).
Proof.
  unfold generatePerformanceInsights, bind, ret, Date_now, JS.push.
  destruct (is_degraded_or_critical _);
    destruct (0 <? length _)%nat;
    try destruct (List.filter _ _);
    solve_rated.
Qed.

Lemma generateQualityInsights_rated lo :
  Forall rated (fst (generateQualityInsights clock answers lo)).
Proof.
  unfold generateQualityInsights, bind, ret, Date_now, JS.push.
  destruct (JS.gt (totalDebt _) 40) eqn:E;
    destruct (criticalIssues _);
    solve_rated.
  all: cbn [impact]; apply Math_min_not_nan; [reflexivity|].
  all: unfold JS.gt in E.
  all: apply Binary64Facts.ltb_true_not_nan in E as [_ E]; exact E.
Qed.

Lemma generateProductivityInsights_rated lo :
  benefit_known (refactoringOps answers) ->
  Forall rated (fst (generateProductivityInsights clock answers lo)).
Proof.
  unfold benefit_known, averageBenefit, generateProductivityInsights,
    bind, ret, Date_now, JS.push.
  destruct (List.filter _ _); intros Hb; solve_rated.
  cbn [impact]. exact Hb.
Qed.

Lemma generateSecurityInsights_rated lo :
  Forall rated (fst (generateSecurityInsights clock answers lo)).
Proof.
  unfold generateSecurityInsights, bind, ret, Date_now, JS.push.
  destruct (is_critical_or_high _); solve_rated.
Qed.

(** Every generated insight has a score other than NaN, unless the
    benefits of the high-priority opportunities average to NaN. *)
Lemma generateInsights_scored (s : State) :
  benefit_known (refactoringOps answers) ->
  scored (fst (generateInsights clock answers s)).
Proof.
  intros Hb. unfold scored, generateInsights, generateAll, bind, ret.
  pose proof (generatePerformanceInsights_rated (ticks s)) as Hp.
  destruct (generatePerformanceInsights clock answers (ticks s)) as [p n1].
  pose proof (generateQualityInsights_rated n1) as Hq.
  destruct (generateQualityInsights clock answers n1) as [q n2].
  pose proof (generateProductivityInsights_rated n2 Hb) as Hr.
  destruct (generateProductivityInsights clock answers n2) as [r n3].
  pose proof (generateSecurityInsights_rated n3) as Hs.
  destruct (generateSecurityInsights clock answers n3) as [sec n4].
  cbn [fst snd app] in *.
  eapply Forall_impl; [|exact rated_scored].
  repeat (apply Forall_app; split); done.
Qed.

End Rated.

(** C2, as the code has it.  [getPrioritizedInsights(n)] returns
    [slice(0, n)] of the generated insights sorted by the comparator
    [bScore - aScore], where a score is
    [priorityWeight[priority] * impact * confidence] with weights 4, 3, 2,
    1, computed in binary64: at most [n] insights when [n] is not negative,
    a prefix of a permutation of the generated insights.  No score is NaN
    unless the benefits of the high-priority opportunities average to NaN.
    When no score is NaN the comparator is a consistent ordering and the
    result is in non-increasing order of score, and insights of equal
    score stay in the order they were generated in, no time stamp being
    consulted. *)
Theorem prioritized_insights_sorted_stable
    `{NumberFormat} (clock : Clock) (answers : Answers) (limit : option Z)
    (s : State) :
  let generated := fst (generateInsights clock answers s) in
  let out := fst (getPrioritizedInsights clock answers limit s) in
  let n := default 10 limit in
  (0 <= n -> Z.of_nat (length out) <= n) /\
  out = JS.slice (JS.sort byScore generated) 0 n /\
  out `prefix_of` JS.sort byScore generated /\
  JS.sort byScore generated ≡ₚ generated /\
  (benefit_known (refactoringOps answers) -> scored generated) /\
  (scored generated ->
   StronglySorted ranks_before out /\
   generation_order_kept generated out) /\
  snd (getPrioritizedInsights clock answers limit s)
  = snd (generateInsights clock answers s).
Proof.
  intros generated out n. subst generated out n.
  pose proof (generateInsights_scored clock answers s) as Hknown.
  revert Hknown. unfold getPrioritizedInsights.
  destruct (generateInsights clock answers s) as [generated s'].
  cbn [fst snd]. intros Hknown. split; [apply JSFacts.slice0_length|].
  split; [reflexivity|]. rewrite JSFacts.slice0_take.
  split; [apply prefix_take|]. split; [apply sort_perm|].
  split; [exact Hknown|].
  split; [|reflexivity]. intros Hscored.
  split; [by apply StronglySorted_take, sort_sorted|].
  intros q. rewrite <- (sort_stable q generated) by done.
  apply filter_take_prefix.
Qed.

Lemma prioritized_insights_witness :
  let generated :=
    fst (generateInsights ticking critical_risk_answers initial) in
  let out :=
    fst (getPrioritizedInsights ticking critical_risk_answers (Some 3)
           initial) in
  Z.of_nat (length out) <= 3 /\
  scored generated /\
  StronglySorted ranks_before out /\
  generation_order_kept generated out.
Proof.
  pose proof (prioritized_insights_sorted_stable
                ticking critical_risk_answers (Some 3) initial)
    as (Hlength & _ & _ & _ & Hscored & Hsorted & _).
  split; [apply Hlength; discriminate|].
  assert (Hs : scored (fst (generateInsights ticking critical_risk_answers
                              initial)))
    by (apply Hscored; reflexivity).
  split; [exact Hs|]. apply Hsorted. exact Hs.
Defined.

(** C2 as stated fails on ties: a critical quality issue and a critical
    security risk both score 342 in binary64; the security insight is the
    more recent one and comes second. *)
Lemma ties_keep_generation_order :
  ~ recent_first
      (fst (getPrioritizedInsights ticking critical_risk_answers None initial)).
Proof.
  intros Hrf.
  assert (Hlt : (1 < 0)%nat); [|lia].
  eapply (Hrf 0%nat 1%nat); [vm_compute; reflexivity.. | |].
  - reflexivity.
  - reflexivity.
Qed.

(** The two scores of the tie, and the insights that carry them. *)
Example tie_at_342 :
  (fun a => (id a, score a, gi_timestamp a))
    <$> take 2 (fst (getPrioritizedInsights ticking critical_risk_answers
                       None initial))
  = [ ("quality-1700000000004-2", 342%float, 1700000000005);
      ("security-1700000000008-1", 342%float, 1700000000009) ].
Proof. reflexivity. Qed.

Set Warnings "-inexact-float".

(** Rounding decides a rank.  With a debt of 47.15 hours and one
    high-priority opportunity of benefit 75.9, the products
    [3 * 47.15 * 0.88] and [2 * 75.9 * 0.82] are equal as rationals; in
    binary64 the first is 124.47599999999998 and the second 124.476, so
    the productivity insight, generated later, is ranked first. *)
Example rounding_decides_rank :
  (fun a => (id a, score a))
    <$> fst (getPrioritizedInsights ticking close_call_answers None initial)
  = [ ("productivity-1700000000002-1", 124.476%float);
      ("quality-1700000000000-1", 124.47599999999998%float) ].
Proof. reflexivity. Qed.

Set Warnings "inexact-float".

(** The condition on the scores is used.  An opportunity whose benefit
    is NaN gives an insight whose score is NaN; every comparison with it
    answers NaN, nothing is swapped, and it stays in front of an insight
    that scores 342. *)
Example nan_score_is_not_ranked :
  let out :=
    fst (getPrioritizedInsights ticking nan_benefit_answers None initial) in
  (fun a => (id a, is_nan (score a))) <$> out
  = [ ("productivity-1700000000000-1", true);
      ("security-1700000000002-1", false) ] /\
  ~ StronglySorted ranks_before out.
Proof.
  split; [reflexivity|]. intros Hs.
  apply StronglySorted_inv in Hs as [_ Hfirst].
  apply Forall_cons in Hfirst as [Hrank _]. vm_compute in Hrank.
  discriminate.
Qed.

(** A negative limit counts from the end, as [slice] does: of five
    insights, limit -2 returns three. *)
Example negative_limit_drops_from_the_end :
  id <$> fst (getPrioritizedInsights ticking critical_risk_answers
                (Some (-2)) initial)
  = ["quality-1700000000004-2"; "security-1700000000008-1";
     "perf-1700000000000-2"].
Proof. reflexivity. Qed.

(** *** Insight ids *)

Lemma last_char_cons c s : s <> "" -> last_char (String c s) = last_char s.
Proof. by destruct s. Qed.

Lemma append_nonempty s1 s2 : s2 <> "" -> s1 +:+ s2 <> "".
Proof. destruct s1; simpl; [done | discriminate]. Qed.

Lemma last_char_app s1 s2 :
  s2 <> "" -> last_char (s1 +:+ s2) = last_char s2.
Proof.
  intros Hne. induction s1 as [| c s1 IH]; [reflexivity|].
  change (String c s1 +:+ s2) with (String c (s1 +:+ s2)).
  rewrite last_char_cons by (by apply append_nonempty). exact IH.
Qed.

Lemma slotted_weaken clock lo hi lo' hi' insight :
  (lo' <= lo)%nat -> (hi <= hi')%nat ->
  slotted clock lo hi insight -> slotted clock lo' hi' insight.
Proof.
  intros Hlo Hhi (n & k & Hn & Hk & Hid). exists n, k. split; [lia | done].
Qed.

Ltac solve_sublist :=
  repeat first [ apply sublist_nil | apply sublist_skip | apply sublist_cons ].

Section Passes.

Context `{NumberFormat}.
Variable clock : Clock.
Variable answers : Answers.

Lemma tag_after_prefix prefix (t : Z) suffix :
  suffix <> "" ->
  last_char (prefix +:+ pretty t +:+ suffix) = last_char suffix.
Proof.
  intros Hne. rewrite last_char_app; [by apply last_char_app|].
  by apply append_nonempty.
Qed.

Ltac slot :=
  match goal with
  | |- slotted ?c _ _ ?i =>
      let idv := eval cbn [id] in (id i) in
      match idv with
      | _ +:+ pretty (c ?n) +:+ "-1" => exists n, 1
      | _ +:+ pretty (c ?n) +:+ "-2" => exists n, 2
      end;
      split; [lia | split; [auto | reflexivity]]
  end.

Ltac tags :=
  unfold tag; rewrite ?tag_after_prefix by discriminate;
  cbn [String.append String.substring last_char]; solve_sublist.

Ltac solve_pass :=
  cbn [fst snd app fmap list_fmap compose id category];
  split; [lia|]; split; [repeat (constructor; [slot|]); constructor | tags].

Lemma generatePerformanceInsights_pass lo :
  pass clock [("pe", "1"); ("pe", "2")] lo
       (generatePerformanceInsights clock answers lo).
Proof.
  unfold pass, generatePerformanceInsights, bind, ret, Date_now, JS.push.
  destruct (is_degraded_or_critical _);
    destruct (0 <? length _)%nat;
    try destruct (List.filter _ _);
    solve_pass.
Qed.

Lemma generateQualityInsights_pass lo :
  pass clock [("qu", "1"); ("qu", "2")] lo
       (generateQualityInsights clock answers lo).
Proof.
  unfold pass, generateQualityInsights, bind, ret, Date_now, JS.push.
  destruct (JS.gt (totalDebt _) 40);
    destruct (criticalIssues _);
    solve_pass.
Qed.

Lemma generateProductivityInsights_pass lo :
  pass clock [("pr", "1")] lo
       (generateProductivityInsights clock answers lo).
Proof.
  unfold pass, generateProductivityInsights, bind, ret, Date_now, JS.push.
  destruct (List.filter _ _); solve_pass.
Qed.

Lemma generateSecurityInsights_pass lo :
  pass clock [("se", "1")] lo
       (generateSecurityInsights clock answers lo).
Proof.
  unfold pass, generateSecurityInsights, bind, ret, Date_now, JS.push.
  destruct (is_critical_or_high _); solve_pass.
Qed.

(** Two generators in a row. *)
Lemma pass_then tags1 tags2 lo r1 r2 :
  pass clock tags1 lo r1 ->
  pass clock tags2 (snd r1) r2 ->
  pass clock (tags1 ++ tags2) lo (fst r1 ++ fst r2, snd r2).
Proof.
  intros (Hlo1 & Hs1 & Ht1) (Hlo2 & Hs2 & Ht2). unfold pass. cbn [fst snd].
  split; [lia|]. split.
  - apply Forall_app. split.
    + eapply Forall_impl; [exact Hs1|]. intros i. apply slotted_weaken; lia.
    + eapply Forall_impl; [exact Hs2|]. intros i. apply slotted_weaken; lia.
  - rewrite fmap_app. by apply sublist_app.
Qed.

Lemma generateAll_pass lo :
  pass clock pass_tags lo (generateAll clock answers lo).
Proof.
  unfold generateAll, bind, ret.
  pose proof (generatePerformanceInsights_pass lo) as Hp.
  destruct (generatePerformanceInsights clock answers lo) as [p n1].
  pose proof (generateQualityInsights_pass n1) as Hq.
  destruct (generateQualityInsights clock answers n1) as [q n2].
  pose proof (generateProductivityInsights_pass n2) as Hr.
  destruct (generateProductivityInsights clock answers n2) as [r n3].
  pose proof (generateSecurityInsights_pass n3) as Hs.
  destruct (generateSecurityInsights clock answers n3) as [sec n4].
  pose proof (pass_then _ _ _ _ _
                (pass_then _ _ _ _ _ (pass_then _ _ _ _ _ Hp Hq) Hr) Hs) as Hall.
  cbn [fst snd app] in Hall. cbn [app]. exact Hall.
Qed.

Lemma pass_tags_NoDup : NoDup pass_tags.
Proof. compute_done. Qed.

Lemma pass_NoDup tags lo r :
  NoDup tags -> pass clock tags lo r -> NoDup (id <$> fst r).
Proof.
  intros Hnd (_ & _ & Hsub).
  apply (NoDup_fmap_1 tag). rewrite <- list_fmap_compose.
  by eapply sublist_NoDup.
Qed.

Lemma storeAll_keyed insights m :
  keyed_by_id m -> keyed_by_id (storeAll insights m).
Proof.
  unfold storeAll. revert m.
  induction insights as [| i insights IH]; intros m Hm; [exact Hm|].
  cbn [fold_left]. apply IH. intros k v.
  destruct (decide (id i = k)) as [<- | Hne].
  - rewrite lookup_insert_eq. by intros [= <-].
  - rewrite lookup_insert_ne by done. apply Hm.
Qed.

Lemma storeAll_other insights (m : gmap string GeneratedInsight) k :
  k ∉ (id <$> insights) -> storeAll insights m !! k = m !! k.
Proof.
  unfold storeAll. revert m.
  induction insights as [| i insights IH]; intros m Hk; [reflexivity|].
  cbn [fold_left]. rewrite fmap_cons, not_elem_of_cons in Hk.
  destruct Hk as [Hne Hk]. rewrite IH by done.
  by rewrite lookup_insert_ne.
Qed.

Lemma storeAll_lookup insights (m : gmap string GeneratedInsight) :
  NoDup (id <$> insights) ->
  Forall (fun i => storeAll insights m !! id i = Some i) insights.
Proof.
  revert m. induction insights as [| i insights IH]; intros m Hnd;
    [constructor|].
  rewrite fmap_cons in Hnd. apply NoDup_cons in Hnd as [Hi Hnd].
  constructor.
  - unfold storeAll. cbn [fold_left]. fold (storeAll insights (<[id i := i]> m)).
    rewrite storeAll_other by done. apply lookup_insert_eq.
  - unfold storeAll. cbn [fold_left]. by apply IH.
Qed.

(** C5, as the code has it.  The id of a generated insight is its
    category prefix, the clock reading made for it, and the number 1 or 2
    of the rule that built it, a constant of the source.  The insights of
    one [generateInsights] pass have pairwise distinct ids; the store keeps
    every insight under its own id, so holds one insight per id, and after
    the pass holds each insight of the pass. *)
Theorem insight_ids_slotted_and_keyed (s : State) :
  keyed_by_id (generatedInsights s) ->
  let insights := fst (generateInsights clock answers s) in
  let s' := snd (generateInsights clock answers s) in
  Forall (slotted clock (ticks s) (ticks s')) insights /\
  NoDup (id <$> insights) /\
  keyed_by_id (generatedInsights s') /\
  Forall (fun i => generatedInsights s' !! id i = Some i) insights.
Proof.
  intros Hk insights s'. subst insights s'. unfold generateInsights.
  pose proof (generateAll_pass (ticks s)) as Hp.
  destruct (generateAll clock answers (ticks s)) as [insights n].
  cbn [fst snd generatedInsights ticks].
  pose proof (pass_NoDup _ _ _ pass_tags_NoDup Hp) as Hnd.
  destruct Hp as (_ & Hs & _). cbn [fst snd] in *.
  split; [exact Hs|]. split; [exact Hnd|]. split.
  - by apply storeAll_keyed.
  - by apply storeAll_lookup.
Qed.

End Passes.

Lemma initial_keyed : keyed_by_id (generatedInsights initial).
Proof. intros k v. unfold initial. simpl. by rewrite lookup_empty. Qed.

Lemma insight_ids_witness :
  let insights :=
    fst (generateInsights ticking (shipped_answers degraded_report) initial) in
  let s' :=
    snd (generateInsights ticking (shipped_answers degraded_report) initial) in
  Forall (slotted ticking (ticks initial) (ticks s')) insights /\
  NoDup (id <$> insights) /\
  keyed_by_id (generatedInsights s') /\
  Forall (fun i => generatedInsights s' !! id i = Some i) insights.
Proof.
  apply (insight_ids_slotted_and_keyed
           ticking (shipped_answers degraded_report) initial).
  exact initial_keyed.
Defined.

(** C5 as stated fails across passes: two passes within one millisecond
    build different insights with the same id. *)
Lemma same_millisecond_ids_collide :
  ~ distinct_ids (fst first_pass ++ fst second_pass).
Proof.
  remember (fst first_pass ++ fst second_pass) as insights eqn:E.
  vm_compute in E. subst insights. intros Hd.
  match type of Hd with
  | distinct_ids (?a :: _ :: _ :: _ :: _ :: ?b :: _) => apply (Hd a b)
  end.
  - apply list_elem_of_here.
  - do 5 apply list_elem_of_further. apply list_elem_of_here.
  - discriminate.
  - reflexivity.
Qed.

(** The second pass replaces the insights of the first in the store. *)
Example second_pass_replaces_first :
  size (generatedInsights (snd first_pass)) = 5%nat /\
  size (generatedInsights (snd second_pass)) = 5%nat /\
  priority <$> (generatedInsights (snd first_pass) !! "perf-1700000000000-1")
  = Some Level.high /\
  priority <$> (generatedInsights (snd second_pass) !! "perf-1700000000000-1")
  = Some Level.critical.
Proof. split; [|split; [|split]]; vm_compute; reflexivity. Qed.

End InsightGenerationFacts.
